(** * es-dev-server: configuration resolution and pipeline assembly

    A shallow embedding of [startServer] (server.js) and [createConfig]
    (config.js) of the es-dev-server package, with the properties of the
    specification that concern them.

    Layout: JavaScript strings and values, the Node [path] interface, the
    configuration records, the two functions, then the theorems. *)

From Stdlib Require Import ZArith Ascii String Bool Lia.
From stdpp Require Import base option list strings.

Local Open Scope Z_scope.
Local Open Scope string_scope.
Local Open Scope list_scope.

(** ** JavaScript strings *)

Module JsString.

(** [s.length] *)
Definition len (s : string) : Z := Z.of_nat (String.length s).

(** [s.startsWith(p)] *)
Definition startsWith (p s : string) : bool := String.prefix p s.

(** Index of the last occurrence of the character [c] in [s], counting
    from [i] for the head of [s]; [acc] is the answer so far. *)
Fixpoint lastIndexOf_from (c : ascii) (s : string) (i acc : Z) : Z :=
  match s with
  | EmptyString => acc
  | String d r =>
      lastIndexOf_from c r (i + 1) (if Ascii.eqb d c then i else acc)
  end.

(** [s.lastIndexOf(c)] for a one-character needle: -1 when absent. *)
Definition lastIndexOf (c : ascii) (s : string) : Z :=
  lastIndexOf_from c s 0 (-1).

(** Clamp an index into [0 .. s.length], as [substring] does. *)
Definition clamp (s : string) (i : Z) : Z := Z.max 0 (Z.min i (len s)).

(** [s.substring(a, b)]: both indices are clamped, and swapped when
    [a > b]. *)
Definition substring (a b : Z) (s : string) : string :=
  let a' := clamp s a in
  let b' := clamp s b in
  let lo := Z.min a' b' in
  let hi := Z.max a' b' in
  String.substring (Z.to_nat lo) (Z.to_nat (hi - lo)) s.

(** [s.replace(new RegExp(c, 'g'), d)] for single characters. *)
Fixpoint replaceAll (c d : ascii) (s : string) : string :=
  match s with
  | EmptyString => EmptyString
  | String x r => String (if Ascii.eqb x c then d else x) (replaceAll c d r)
  end.

(** [s.split(c)] for a one-character separator. *)
Fixpoint split (c : ascii) (s : string) : list string :=
  match s with
  | EmptyString => [EmptyString]
  | String x r =>
      if Ascii.eqb x c then EmptyString :: split c r
      else match split c r with
           | h :: t => String x h :: t
           | [] => [String x EmptyString]
           end
  end.

(** [xs.join(sep)], which is also what [`${xs}`] does with [","]. *)
Fixpoint join (sep : string) (xs : list string) : string :=
  match xs with
  | [] => EmptyString
  | [x] => x
  | x :: r => x +:+ sep +:+ join sep r
  end.

(** [xs.includes(s)] on an array of strings. *)
Definition includes (xs : list string) (s : string) : bool :=
  existsb (String.eqb s) xs.

End JsString.

(** ** JavaScript values, as far as the stage flags need them *)

(** An object passed as [customBabelConfig]; objects are told apart by
    identity only. *)
Inductive BabelConfig := BabelConfigObj (id : nat).

Inductive JsVal :=
| VUndefined
| VBool (b : bool)
| VString (s : string)
| VObject (o : BabelConfig).

(** ToBoolean *)
Definition truthy (v : JsVal) : bool :=
  match v with
  | VUndefined => false
  | VBool b => b
  | VString s => negb (String.eqb s EmptyString)
  | VObject _ => true
  end.

(** [a || b] and [a && b] return one of their operands. *)
Definition js_or (a b : JsVal) : JsVal := if truthy a then a else b.
Definition js_and (a b : JsVal) : JsVal := if truthy a then b else a.

Infix "|||" := js_or (at level 50, left associativity).
Infix "&&&" := js_and (at level 40, left associativity).

(** An optional string read as a value: [undefined] when absent. *)
Definition VOptString (o : option string) : JsVal :=
  match o with Some s => VString s | None => VUndefined end.

Definition VOptObject (o : option BabelConfig) : JsVal :=
  match o with Some c => VObject c | None => VUndefined end.

(** A destructuring default [x = d] applies when the property is
    [undefined]. *)
Definition dflt {A} (d : A) (o : option A) : A :=
  match o with Some x => x | None => d end.

(** ** The Node [path] module and the process *)

(** What the two functions use of their platform: [path.sep],
    [path.isAbsolute], [path.relative] and [process.cwd()]. *)
Record Platform := {
  path_sep : ascii;
  path_isAbsolute : string -> bool;
  path_relative : string -> string -> string;
  process_cwd : string;
}.

(** Modelled from the spec: utils/utils.js is not among the sources.  The
    specification's path normalizer "converts separators" to give the
    browser-path form: every platform separator becomes a forward slash. *)
Definition toBrowserPath (pf : Platform) (filePath : string) : string :=
  JsString.replaceAll (path_sep pf) "/"%char filePath.

(** The POSIX flavour of [path], with the working directory [cwd]. *)
Module Posix.

(** Walk the segments of a path: empty segments and ["."] are dropped,
    [".."] removes the segment before it (and nothing at the root).
    [acc] holds the segments kept so far, last one first. *)
Fixpoint normalizeSegments (segs acc : list string) : list string :=
  match segs with
  | [] => rev acc
  | s :: r =>
      if String.eqb s EmptyString || String.eqb s "." then normalizeSegments r acc
      else if String.eqb s ".." then normalizeSegments r (tail acc)
      else normalizeSegments r (s :: acc)
  end.

Definition isAbsolute (p : string) : bool := JsString.startsWith "/" p.

(** [path.resolve(p)], as the list of segments below the root. *)
Definition resolveSegments (cwd p : string) : list string :=
  let full := if isAbsolute p then p else cwd +:+ "/" +:+ p in
  normalizeSegments (JsString.split "/"%char full) [].

(** Remove the longest common prefix of two segment lists. *)
Fixpoint dropCommon (a b : list string) : list string * list string :=
  match a, b with
  | x :: a', y :: b' => if String.eqb x y then dropCommon a' b' else (a, b)
  | _, _ => (a, b)
  end.

(** [path.relative(from, to)]: one [".."] for each segment of [from]
    below the common ancestor, then what remains of [to]. *)
Definition relative (cwd from to : string) : string :=
  if String.eqb from to then EmptyString
  else
    let '(up, down) :=
      dropCommon (resolveSegments cwd from) (resolveSegments cwd to) in
    JsString.join "/" (map (fun _ => "..") up ++ down).

Definition platform (cwd : string) : Platform := {|
  path_sep := "/"%char;
  path_isAbsolute := isAbsolute;
  path_relative := relative cwd;
  process_cwd := cwd;
|}.

End Posix.

(** ** Configuration *)

(** Modelled from the spec: constants.js is not among the sources.  The
    specification gives the compatibility mode as a closed enumeration
    with the members [none], [modern] and [all]. *)
Module compatibilityModes.
Definition NONE : string := "none".
Definition MODERN : string := "modern".
Definition ALL : string := "all".
(** [Object.values(compatibilityModes)] *)
Definition values : list string := [NONE; MODERN; ALL].
End compatibilityModes.

(** A middleware function supplied by the user, known by identity only. *)
Inductive UserMiddleware := UserMiddlewareFn (id : nat).

(** The argument of both functions: every property is optional, and
    [None] stands for a property that is [undefined]. *)
Record EsDevServerConfig := {
  cfg_port : option Z;
  cfg_hostname : option string;
  cfg_rootDir : option string;
  cfg_appIndex : option string;
  cfg_moduleDirectories : option (list string);
  cfg_nodeResolve : option bool;
  cfg_readUserBabelConfig : option bool;
  cfg_watch : option bool;
  cfg_openBrowser : option bool;
  cfg_openPath : option string;
  cfg_logStartup : option bool;
  cfg_http2 : option bool;
  cfg_compatibilityMode : option string;
  cfg_watchExcludes : option (list string);
  cfg_watchDebounce : option Z;
  cfg_customBabelConfig : option BabelConfig;
  cfg_extraFileExtensions : option (list string);
  cfg_babelExclude : option (list string);
  cfg_babelModernExclude : option (list string);
  cfg_customMiddlewares : option (list UserMiddleware);
}.

(** The object [{}]. *)
Definition emptyConfig : EsDevServerConfig := {|
  cfg_port := None; cfg_hostname := None; cfg_rootDir := None;
  cfg_appIndex := None; cfg_moduleDirectories := None;
  cfg_nodeResolve := None; cfg_readUserBabelConfig := None;
  cfg_watch := None; cfg_openBrowser := None; cfg_openPath := None;
  cfg_logStartup := None; cfg_http2 := None; cfg_compatibilityMode := None;
  cfg_watchExcludes := None; cfg_watchDebounce := None;
  cfg_customBabelConfig := None; cfg_extraFileExtensions := None;
  cfg_babelExclude := None; cfg_babelModernExclude := None;
  cfg_customMiddlewares := None;
|}.

(** The block that both functions run on [appIndex] (server.js 65-79 and
    config.js 253-267): the pair of [appIndex] and [appIndexDir] after it.
    [None] is [undefined]. *)
Definition resolveAppIndex (pf : Platform) (rootDir : string)
    (appIndex : option string) : option string * option string :=
  if truthy (VOptString appIndex) then
    match appIndex with
    | Some a =>
        let a' :=
          if path_isAbsolute pf a then
            "/" +:+ toBrowserPath pf (path_relative pf rootDir a)
          else if negb (JsString.startsWith "/" a) then
            "/" +:+ toBrowserPath pf a
          else
            toBrowserPath pf a in
        (Some a',
         Some (JsString.substring 0 (JsString.lastIndexOf "/"%char a') a'))
    | None => (None, None)
    end
  else (appIndex, None).

(** *** createConfig *)

(** The record that [createConfig] returns.  In [customBabelConfig],
    [openPath] and [customMiddlewares] [None] is [null] (their default);
    in [appIndex] and [appIndexDir] it is [undefined]. *)
Record Config := {
  port : Z;
  hostname : string;
  rootDir : string;
  appIndexDir : option string;
  appIndex : option string;
  moduleDirectories : list string;
  nodeResolve : bool;
  readUserBabelConfig : bool;
  customBabelConfig : option BabelConfig;
  watch : bool;
  openBrowser : bool;
  openPath : option string;
  logStartup : bool;
  http2 : bool;
  extraFileExtensions : list string;
  compatibilityMode : string;
  babelExclude : list string;
  babelModernExclude : list string;
  watchExcludes : list string;
  watchDebounce : Z;
  customMiddlewares : option (list UserMiddleware);
}.

Definition createConfig (pf : Platform) (config : EsDevServerConfig) : Config :=
  let port := dflt 8080 (cfg_port config) in
  let hostname := dflt "127.0.0.1" (cfg_hostname config) in
  let rootDir := dflt (process_cwd pf) (cfg_rootDir config) in
  let moduleDirectories := dflt ["node_modules"] (cfg_moduleDirectories config) in
  let nodeResolve := dflt false (cfg_nodeResolve config) in
  let readUserBabelConfig := dflt false (cfg_readUserBabelConfig config) in
  let customBabelConfig := cfg_customBabelConfig config in
  let watch := dflt false (cfg_watch config) in
  let openBrowser := dflt false (cfg_openBrowser config) in
  let openPath := cfg_openPath config in
  let logStartup := dflt false (cfg_logStartup config) in
  let http2 := dflt false (cfg_http2 config) in
  let extraFileExtensions := dflt [] (cfg_extraFileExtensions config) in
  let compatibilityMode :=
    dflt compatibilityModes.NONE (cfg_compatibilityMode config) in
  let babelExclude := dflt [] (cfg_babelExclude config) in
  let babelModernExclude := dflt [] (cfg_babelModernExclude config) in
  let watchExcludes := dflt ["node_modules/**"] (cfg_watchExcludes config) in
  let watchDebounce := dflt 1000 (cfg_watchDebounce config) in
  let customMiddlewares := cfg_customMiddlewares config in
  let '(appIndex, appIndexDir) :=
    resolveAppIndex pf rootDir (cfg_appIndex config) in
  {| port := port; hostname := hostname; rootDir := rootDir;
     appIndexDir := appIndexDir; appIndex := appIndex;
     moduleDirectories := moduleDirectories; nodeResolve := nodeResolve;
     readUserBabelConfig := readUserBabelConfig;
     customBabelConfig := customBabelConfig; watch := watch;
     openBrowser := openBrowser; openPath := openPath;
     logStartup := logStartup; http2 := http2;
     extraFileExtensions := extraFileExtensions;
     compatibilityMode := compatibilityMode; babelExclude := babelExclude;
     babelModernExclude := babelModernExclude;
     watchExcludes := watchExcludes; watchDebounce := watchDebounce;
     customMiddlewares := customMiddlewares |}.

(** ** The pipeline and the objects [startServer] creates *)

(** Options of [createBabelMiddleware]. *)
Record BabelOptions := {
  bo_rootDir : string;
  bo_moduleDirectories : list string;
  bo_nodeResolve : bool;
  bo_readUserBabelConfig : bool;
  bo_compatibilityMode : string;
  bo_extraFileExtensions : list string;
  bo_customBabelConfig : option BabelConfig;
  bo_babelExclude : list string;
  bo_babelModernExclude : list string;
}.

(** A handle on a chokidar watcher or on an HTTP server: its position in
    the store of the [World]. *)
Definition Handle := nat.

(** One entry of the chain of a Koa application: what [app.use] was given,
    named after the function that made it, with that function's options. *)
Inductive Middleware :=
| CustomMiddleware (customMiddleware : UserMiddleware)
| CacheMiddleware
| KoaEtag
| MessageChannelMiddleware (rootDir : string) (appIndex : option string)
| ReloadBrowserMiddleware (rootDir : string) (fileWatcher : option Handle)
    (watchExcludes : list string) (watchDebounce : Z)
| BabelMiddleware (options : BabelOptions)
| TransformIndexHTMLMiddleware (compatibilityMode : string)
    (appIndex appIndexDir : option string)
| HistoryAPIFallbackMiddleware (appIndex appIndexDir : option string)
| KoaStatic (rootDir : string).

(** A Koa application is its chain; [app.use] appends to it. *)
Definition Koa := list Middleware.
Definition Koa_new : Koa := [].
Definition Koa_use (app : Koa) (m : Middleware) : Koa := app ++ [m].

(** A chokidar watcher: the paths it watches and whether it was closed. *)
Record FSWatcher := { watched : list string; closed : bool }.

(** The listener that [startServer] puts on the server's [close] event,
    with the [fileWatcher] it captures. *)
Inductive Listener := CloseFileWatcher (fileWatcher : option Handle).

(** Arguments of [openBrowserAndLogStartup], called once listening. *)
Record StartupOptions := {
  su_appIndex : option string;
  su_openBrowser : bool;
  su_openPath : option string;
  su_hostname : string;
  su_port : Z;
  su_rootDir : string;
  su_logStartup : bool;
  su_http2 : bool;
}.

(** An HTTP server: the request handler it was created with, the port and
    host it was told to listen on (if any), what it does once listening,
    and its listeners for [close]. *)
Record HTTPServer := {
  srv_handler : Koa;
  srv_http2 : bool;
  srv_listen : option (Z * string);
  srv_onListening : option StartupOptions;
  srv_onClose : list Listener;
}.

(** The objects alive in the process. *)
Record World := { watchers : list FSWatcher; servers : list HTTPServer }.

Definition emptyWorld : World := {| watchers := []; servers := [] |}.

(** *** Computations that change the world or throw *)

Inductive Outcome (A : Type) :=
| Returned (a : A)
| Thrown (message : string).
Arguments Returned {A} a.
Arguments Thrown {A} message.

Definition Js (A : Type) : Type := World -> Outcome A * World.

#[global] Instance Js_ret : MRet Js := fun A a w => (Returned a, w).

#[global] Instance Js_bind : MBind Js := fun A B k c w =>
  match c w with
  | (Returned a, w') => k a w'
  | (Thrown e, w') => (Thrown e, w')
  end.

(** [throw new Error(message)] *)
Definition throw {A} (message : string) : Js A := fun w => (Thrown message, w).

(** [chokidar.watch(paths)] *)
Definition chokidar_watch (paths : list string) : Js Handle := fun w =>
  (Returned (length (watchers w)),
   {| watchers := watchers w ++ [{| watched := paths; closed := false |}];
      servers := servers w |}).

(** [fileWatcher.close()] *)
Definition FSWatcher_close (h : Handle) : Js unit := fun w =>
  (Returned tt,
   {| watchers :=
        alter (fun fw => {| watched := watched fw; closed := true |}) h
              (watchers w);
      servers := servers w |}).

(** [createHTTPServer(app.callback(), http2)] *)
Definition createHTTPServer (handler : Koa) (http2 : bool) : Js Handle :=
  fun w =>
  (Returned (length (servers w)),
   {| watchers := watchers w;
      servers := servers w ++
        [{| srv_handler := handler; srv_http2 := http2; srv_listen := None;
            srv_onListening := None; srv_onClose := [] |}] |}).

Definition update_server (f : HTTPServer -> HTTPServer) (h : Handle) : Js unit :=
  fun w =>
  (Returned tt, {| watchers := watchers w; servers := alter f h (servers w) |}).

(** [server.listen({ port, host }, callback)] *)
Definition server_listen (h : Handle) (port : Z) (host : string)
    (callback : StartupOptions) : Js unit :=
  update_server (fun s =>
    {| srv_handler := srv_handler s; srv_http2 := srv_http2 s;
       srv_listen := Some (port, host); srv_onListening := Some callback;
       srv_onClose := srv_onClose s |}) h.

(** [server.addListener('close', listener)] *)
Definition server_addListener_close (h : Handle) (l : Listener) : Js unit :=
  update_server (fun s =>
    {| srv_handler := srv_handler s; srv_http2 := srv_http2 s;
       srv_listen := srv_listen s; srv_onListening := srv_onListening s;
       srv_onClose := srv_onClose s ++ [l] |}) h.

(** Running the listener: [if (fileWatcher) fileWatcher.close()]. *)
Definition run_listener (l : Listener) : Js unit :=
  match l with
  | CloseFileWatcher (Some h) => FSWatcher_close h
  | CloseFileWatcher None => mret tt
  end.

Fixpoint run_listeners (ls : list Listener) : Js unit :=
  match ls with
  | [] => mret tt
  | l :: r => run_listener l ≫= fun _ => run_listeners r
  end.

(** The server emits [close]: its listeners run in the order they were
    added. *)
Definition server_emit_close (h : Handle) : Js unit := fun w =>
  match servers w !! h with
  | Some s => run_listeners (srv_onClose s) w
  | None => (Returned tt, w)
  end.

(** ** startServer *)

(** The five stage flags (server.js 89-97), as the values the code gives
    them: [||] and [&&] hand on an operand, so a flag can hold a string or
    the babel configuration object, and is read for its truthiness. *)
Record StageFlags := {
  setupBabel : JsVal;
  setupCompatibility : JsVal;
  setupTransformIndexHTML : JsVal;
  setupHistoryFallback : JsVal;
  setupMessageChanel : JsVal;
}.

(** The local constants of [startServer] once line 97 is reached. *)
Record Locals := {
  l_port : Z;
  l_hostname : string;
  l_rootDir : string;
  l_moduleDirectories : list string;
  l_nodeResolve : bool;
  l_readUserBabelConfig : bool;
  l_customBabelConfig : option BabelConfig;
  l_watch : bool;
  l_openBrowser : bool;
  l_openPath : option string;
  l_logStartup : bool;
  l_http2 : bool;
  l_extraFileExtensions : list string;
  l_compatibilityMode : string;
  l_babelExclude : list string;
  l_babelModernExclude : list string;
  l_watchExcludes : list string;
  l_watchDebounce : Z;
  l_customMiddlewares : option (list UserMiddleware);
  l_appIndex : option string;
  l_appIndexDir : option string;
  l_flags : StageFlags;
}.

(** The message of the error of line 82. *)
Definition unknownCompatibilityMode (compatibilityMode : string) : string :=
  "Unknown compatibility mode: " +:+ compatibilityMode +:+
  ". Must be one of: " +:+ JsString.join "," compatibilityModes.values.

(** Lines 89-97. *)
Definition deriveFlags (customBabelConfig : option BabelConfig)
    (nodeResolve readUserBabelConfig watch : bool)
    (compatibilityMode : string) (appIndex : option string) : StageFlags :=
  let setupBabel :=
    VOptObject customBabelConfig |||
    VBool nodeResolve |||
    VBool (JsString.includes
             [compatibilityModes.ALL; compatibilityModes.MODERN]
             compatibilityMode) |||
    VBool readUserBabelConfig in
  let setupCompatibility :=
    VString compatibilityMode &&&
    VBool (negb (String.eqb compatibilityMode compatibilityModes.NONE)) in
  let setupTransformIndexHTML := setupBabel ||| setupCompatibility in
  let setupHistoryFallback := VOptString appIndex in
  let setupMessageChanel := VBool watch ||| setupBabel in
  {| setupBabel := setupBabel;
     setupCompatibility := setupCompatibility;
     setupTransformIndexHTML := setupTransformIndexHTML;
     setupHistoryFallback := setupHistoryFallback;
     setupMessageChanel := setupMessageChanel |}.

(** Lines 43-97: defaults, [appIndex], the check of the compatibility
    mode, the flags.  Nothing outside the function is touched here. *)
Definition startServer_locals (pf : Platform) (config : EsDevServerConfig)
    : Outcome Locals :=
  let port := dflt 8080 (cfg_port config) in
  let hostname := dflt "127.0.0.1" (cfg_hostname config) in
  let rootDir := dflt (process_cwd pf) (cfg_rootDir config) in
  let moduleDirectories := dflt ["node_modules"] (cfg_moduleDirectories config) in
  let nodeResolve := dflt false (cfg_nodeResolve config) in
  let readUserBabelConfig := dflt false (cfg_readUserBabelConfig config) in
  let customBabelConfig := cfg_customBabelConfig config in
  let watch := dflt false (cfg_watch config) in
  let openBrowser := dflt false (cfg_openBrowser config) in
  let openPath := cfg_openPath config in
  let logStartup := dflt false (cfg_logStartup config) in
  let http2 := dflt false (cfg_http2 config) in
  let extraFileExtensions := dflt [] (cfg_extraFileExtensions config) in
  let compatibilityMode :=
    dflt compatibilityModes.NONE (cfg_compatibilityMode config) in
  let babelExclude := dflt [] (cfg_babelExclude config) in
  let babelModernExclude := dflt [] (cfg_babelModernExclude config) in
  let watchExcludes := dflt ["node_modules/**"] (cfg_watchExcludes config) in
  let watchDebounce := dflt 1000 (cfg_watchDebounce config) in
  let customMiddlewares := cfg_customMiddlewares config in
  let '(appIndex, appIndexDir) :=
    resolveAppIndex pf rootDir (cfg_appIndex config) in
  if negb (JsString.includes compatibilityModes.values compatibilityMode) then
    Thrown (unknownCompatibilityMode compatibilityMode)
  else
    Returned
      {| l_port := port; l_hostname := hostname; l_rootDir := rootDir;
         l_moduleDirectories := moduleDirectories;
         l_nodeResolve := nodeResolve;
         l_readUserBabelConfig := readUserBabelConfig;
         l_customBabelConfig := customBabelConfig; l_watch := watch;
         l_openBrowser := openBrowser; l_openPath := openPath;
         l_logStartup := logStartup; l_http2 := http2;
         l_extraFileExtensions := extraFileExtensions;
         l_compatibilityMode := compatibilityMode;
         l_babelExclude := babelExclude;
         l_babelModernExclude := babelModernExclude;
         l_watchExcludes := watchExcludes; l_watchDebounce := watchDebounce;
         l_customMiddlewares := customMiddlewares;
         l_appIndex := appIndex; l_appIndexDir := appIndexDir;
         l_flags := deriveFlags customBabelConfig nodeResolve
                      readUserBabelConfig watch compatibilityMode appIndex |}.

(** [if (cond) app.use(m)] *)
Definition use_if (cond : bool) (m : Middleware) (app : Koa) : Koa :=
  if cond then Koa_use app m else app.

(** Lines 104-108. *)
Definition use_customMiddlewares (customMiddlewares : option (list UserMiddleware))
    (app : Koa) : Koa :=
  match customMiddlewares with
  | Some ms =>
      if (0 <? Z.of_nat (length ms))%Z then
        fold_left (fun app customMiddleware =>
                     Koa_use app (CustomMiddleware customMiddleware)) ms app
      else app
  | None => app
  end.

(** Lines 103-166: the chain, for a given [fileWatcher]. *)
Definition assemble (L : Locals) (fileWatcher : option Handle) : Koa :=
  let F := l_flags L in
  let app := Koa_new in
  let app := use_customMiddlewares (l_customMiddlewares L) app in
  let app := Koa_use app CacheMiddleware in
  let app := Koa_use app KoaEtag in
  let app := use_if (truthy (setupMessageChanel F))
               (MessageChannelMiddleware (l_rootDir L) (l_appIndex L)) app in
  let app := use_if (l_watch L)
               (ReloadBrowserMiddleware (l_rootDir L) fileWatcher
                  (l_watchExcludes L) (l_watchDebounce L)) app in
  let app := use_if (truthy (setupBabel F))
               (BabelMiddleware
                  {| bo_rootDir := l_rootDir L;
                     bo_moduleDirectories := l_moduleDirectories L;
                     bo_nodeResolve := l_nodeResolve L;
                     bo_readUserBabelConfig := l_readUserBabelConfig L;
                     bo_compatibilityMode := l_compatibilityMode L;
                     bo_extraFileExtensions := l_extraFileExtensions L;
                     bo_customBabelConfig := l_customBabelConfig L;
                     bo_babelExclude := l_babelExclude L;
                     bo_babelModernExclude := l_babelModernExclude L |}) app in
  let app := use_if (truthy (setupTransformIndexHTML F))
               (TransformIndexHTMLMiddleware (l_compatibilityMode L)
                  (l_appIndex L) (l_appIndexDir L)) app in
  let app := use_if (truthy (setupHistoryFallback F))
               (HistoryAPIFallbackMiddleware (l_appIndex L) (l_appIndexDir L))
               app in
  Koa_use app (KoaStatic (l_rootDir L)).

(** What [startServer] returns. *)
Record ServerAndApp := { server : Handle; app : Koa }.

(** Lines 99-195. *)
Definition startServer_run (L : Locals) : Js ServerAndApp :=
  fileWatcher ← (if l_watch L
                 then h ← chokidar_watch []; mret (Some h)
                 else mret None);
  let app := assemble L fileWatcher in
  server ← createHTTPServer app (l_http2 L);
  _ ← server_listen server (l_port L) (l_hostname L)
        {| su_appIndex := l_appIndex L; su_openBrowser := l_openBrowser L;
           su_openPath := l_openPath L; su_hostname := l_hostname L;
           su_port := l_port L; su_rootDir := l_rootDir L;
           su_logStartup := l_logStartup L; su_http2 := l_http2 L |};
  _ ← server_addListener_close server (CloseFileWatcher fileWatcher);
  mret {| server := server; app := app |}.

Definition startServer (pf : Platform) (config : EsDevServerConfig)
    : Js ServerAndApp :=
  match startServer_locals pf config with
  | Thrown message => throw message
  | Returned L => startServer_run L
  end.

(** ** Configurations used as examples *)

(** A configuration object with these five properties at most. *)
Definition configWith (rootDir appIndex compatibilityMode : option string)
    (watch nodeResolve : option bool) : EsDevServerConfig := {|
  cfg_port := None; cfg_hostname := None; cfg_rootDir := rootDir;
  cfg_appIndex := appIndex; cfg_moduleDirectories := None;
  cfg_nodeResolve := nodeResolve; cfg_readUserBabelConfig := None;
  cfg_watch := watch; cfg_openBrowser := None; cfg_openPath := None;
  cfg_logStartup := None; cfg_http2 := None;
  cfg_compatibilityMode := compatibilityMode;
  cfg_watchExcludes := None; cfg_watchDebounce := None;
  cfg_customBabelConfig := None; cfg_extraFileExtensions := None;
  cfg_babelExclude := None; cfg_babelModernExclude := None;
  cfg_customMiddlewares := None;
|}.

(** [{rootDir: "/app", appIndex: "index.html", watch: true}] *)
Definition scenarioConfig : EsDevServerConfig :=
  configWith (Some "/app") (Some "index.html") None (Some true) None.

(** [{compatibilityMode: "all"}] *)
Definition allModeConfig : EsDevServerConfig :=
  configWith None None (Some "all") None None.

(** [{compatibilityMode: "esm"}], a mode outside the enumeration. *)
Definition esmModeConfig : EsDevServerConfig :=
  configWith None None (Some "esm") None None.

(** [{rootDir: "/app", appIndex: ""}] *)
Definition emptyIndexConfig : EsDevServerConfig :=
  configWith (Some "/app") (Some EmptyString) None None None.

(** [{rootDir: "/app", appIndex: "/index.html"}] *)
Definition slashIndexConfig : EsDevServerConfig :=
  configWith (Some "/app") (Some "/index.html") None None None.

(** [{rootDir: "/app", appIndex: "/app/demo/index.html", watch: true}] *)
Definition demoConfig : EsDevServerConfig :=
  configWith (Some "/app") (Some "/app/demo/index.html") None (Some true) None.

(** A POSIX machine whose working directory is [/home/dev]. *)
Definition devMachine : Platform := Posix.platform "/home/dev".

(** ** Notions used to state the properties *)

(** The mode [startServer] and [createConfig] work with. *)
Definition modeOf (config : EsDevServerConfig) : string :=
  dflt compatibilityModes.NONE (cfg_compatibilityMode config).

(** The watcher of line 101: a new handle when [watch], else [null]. *)
Definition fileWatcherOf (L : Locals) (w : World) : option Handle :=
  if l_watch L then Some (length (watchers w)) else None.

(** The server as lines 169-190 leave it. *)
Definition serverOf (L : Locals) (w : World) : HTTPServer := {|
  srv_handler := assemble L (fileWatcherOf L w);
  srv_http2 := l_http2 L;
  srv_listen := Some (l_port L, l_hostname L);
  srv_onListening := Some
    {| su_appIndex := l_appIndex L; su_openBrowser := l_openBrowser L;
       su_openPath := l_openPath L; su_hostname := l_hostname L;
       su_port := l_port L; su_rootDir := l_rootDir L;
       su_logStartup := l_logStartup L; su_http2 := l_http2 L |};
  srv_onClose := [CloseFileWatcher (fileWatcherOf L w)];
|}.

(** The stage that [cond] guards, as a piece of the chain. *)
Definition stage_if (cond : bool) (m : Middleware) : list Middleware :=
  if cond then [m] else [].

(** The chain of lines 103-166, written out. *)
Definition chainOf (L : Locals) (fileWatcher : option Handle) : list Middleware :=
  map CustomMiddleware (dflt [] (l_customMiddlewares L)) ++
  [CacheMiddleware; KoaEtag] ++
  stage_if (truthy (setupMessageChanel (l_flags L)))
    (MessageChannelMiddleware (l_rootDir L) (l_appIndex L)) ++
  stage_if (l_watch L)
    (ReloadBrowserMiddleware (l_rootDir L) fileWatcher
       (l_watchExcludes L) (l_watchDebounce L)) ++
  stage_if (truthy (setupBabel (l_flags L)))
    (BabelMiddleware
       {| bo_rootDir := l_rootDir L;
          bo_moduleDirectories := l_moduleDirectories L;
          bo_nodeResolve := l_nodeResolve L;
          bo_readUserBabelConfig := l_readUserBabelConfig L;
          bo_compatibilityMode := l_compatibilityMode L;
          bo_extraFileExtensions := l_extraFileExtensions L;
          bo_customBabelConfig := l_customBabelConfig L;
          bo_babelExclude := l_babelExclude L;
          bo_babelModernExclude := l_babelModernExclude L |}) ++
  stage_if (truthy (setupTransformIndexHTML (l_flags L)))
    (TransformIndexHTMLMiddleware (l_compatibilityMode L)
       (l_appIndex L) (l_appIndexDir L)) ++
  stage_if (truthy (setupHistoryFallback (l_flags L)))
    (HistoryAPIFallbackMiddleware (l_appIndex L) (l_appIndexDir L)) ++
  [KoaStatic (l_rootDir L)].

(** The kind of a stage, forgetting its options. *)
Inductive Stage :=
| SCustom | SCache | SEtag | SMessageChannel | SReloadBrowser | SBabel
| STransformIndexHTML | SHistoryFallback | SStatic.

Definition stageOf (m : Middleware) : Stage :=
  match m with
  | CustomMiddleware _ => SCustom
  | CacheMiddleware => SCache
  | KoaEtag => SEtag
  | MessageChannelMiddleware _ _ => SMessageChannel
  | ReloadBrowserMiddleware _ _ _ _ => SReloadBrowser
  | BabelMiddleware _ => SBabel
  | TransformIndexHTMLMiddleware _ _ _ => STransformIndexHTML
  | HistoryAPIFallbackMiddleware _ _ => SHistoryFallback
  | KoaStatic _ => SStatic
  end.

(** The flag that decides on a stage; the unconditional ones have none. *)
Definition flagOf (L : Locals) (s : Stage) : option bool :=
  let F := l_flags L in
  match s with
  | SMessageChannel => Some (truthy (setupMessageChanel F))
  | SReloadBrowser => Some (l_watch L)
  | SBabel => Some (truthy (setupBabel F))
  | STransformIndexHTML => Some (truthy (setupTransformIndexHTML F))
  | SHistoryFallback => Some (truthy (setupHistoryFallback F))
  | _ => None
  end.

(** Whether the character [c] occurs in [s]. *)
Fixpoint occurs (c : ascii) (s : string) : bool :=
  match s with
  | EmptyString => false
  | String d r => Ascii.eqb d c || occurs c r
  end.

(** [appIndex] after the block, for a non-empty input. *)
Definition normalizedAppIndex (pf : Platform) (rootDir a : string) : string :=
  if path_isAbsolute pf a then
    "/" +:+ toBrowserPath pf (path_relative pf rootDir a)
  else if negb (JsString.startsWith "/" a) then "/" +:+ toBrowserPath pf a
  else toBrowserPath pf a.

(** ** Passing configurations on *)

(** The record of [createConfig] given as a configuration again: every
    property is present, [appIndex] as it was left, and a [null] stays
    where it was.  In [customBabelConfig], [openPath] and
    [customMiddlewares] the two functions do the same with [null] as with
    [undefined] (no default other than [null], and only truthiness is
    tested), so [None] stands for either there. *)
Definition asInput (C : Config) : EsDevServerConfig := {|
  cfg_port := Some (port C); cfg_hostname := Some (hostname C);
  cfg_rootDir := Some (rootDir C); cfg_appIndex := appIndex C;
  cfg_moduleDirectories := Some (moduleDirectories C);
  cfg_nodeResolve := Some (nodeResolve C);
  cfg_readUserBabelConfig := Some (readUserBabelConfig C);
  cfg_watch := Some (watch C); cfg_openBrowser := Some (openBrowser C);
  cfg_openPath := openPath C; cfg_logStartup := Some (logStartup C);
  cfg_http2 := Some (http2 C);
  cfg_compatibilityMode := Some (compatibilityMode C);
  cfg_watchExcludes := Some (watchExcludes C);
  cfg_watchDebounce := Some (watchDebounce C);
  cfg_customBabelConfig := customBabelConfig C;
  cfg_extraFileExtensions := Some (extraFileExtensions C);
  cfg_babelExclude := Some (babelExclude C);
  cfg_babelModernExclude := Some (babelModernExclude C);
  cfg_customMiddlewares := customMiddlewares C;
|}.

(** [{...config, customMiddlewares: ms}] *)
Definition withCustomMiddlewares (ms : option (list UserMiddleware))
    (config : EsDevServerConfig) : EsDevServerConfig := {|
  cfg_port := cfg_port config; cfg_hostname := cfg_hostname config;
  cfg_rootDir := cfg_rootDir config; cfg_appIndex := cfg_appIndex config;
  cfg_moduleDirectories := cfg_moduleDirectories config;
  cfg_nodeResolve := cfg_nodeResolve config;
  cfg_readUserBabelConfig := cfg_readUserBabelConfig config;
  cfg_watch := cfg_watch config; cfg_openBrowser := cfg_openBrowser config;
  cfg_openPath := cfg_openPath config;
  cfg_logStartup := cfg_logStartup config; cfg_http2 := cfg_http2 config;
  cfg_compatibilityMode := cfg_compatibilityMode config;
  cfg_watchExcludes := cfg_watchExcludes config;
  cfg_watchDebounce := cfg_watchDebounce config;
  cfg_customBabelConfig := cfg_customBabelConfig config;
  cfg_extraFileExtensions := cfg_extraFileExtensions config;
  cfg_babelExclude := cfg_babelExclude config;
  cfg_babelModernExclude := cfg_babelModernExclude config;
  cfg_customMiddlewares := ms;
|}.

(** The compatibility mode that a stage was created with, for the two
    stages that take one. *)
Definition stageMode (m : Middleware) : option string :=
  match m with
  | BabelMiddleware options => Some (bo_compatibilityMode options)
  | TransformIndexHTMLMiddleware compatibilityMode _ _ =>
      Some compatibilityMode
  | _ => None
  end.

(** [{rootDir: "/app", compatibilityMode: "modern"}] *)
Definition modernConfig : EsDevServerConfig :=
  configWith (Some "/app") None (Some "modern") None None.

(** * Properties *)

(** ** The string and path helpers on concrete inputs *)

Example posix_relative_sibling :
  Posix.relative "/" "/app" "/index.html" = "../index.html".
Proof. reflexivity. Qed.

Example posix_relative_below :
  Posix.relative "/" "/app" "/app/demo/index.html" = "demo/index.html".
Proof. reflexivity. Qed.

Example lastIndexOf_absent : JsString.lastIndexOf "/"%char "abc" = -1.
Proof. reflexivity. Qed.

Example substring_negative_end : JsString.substring 0 (-1) "abc" = EmptyString.
Proof. reflexivity. Qed.

(** ** Truthiness of the flag expressions *)

Lemma truthy_js_or a b : truthy (a ||| b) = truthy a || truthy b.
Proof. unfold js_or. destruct (truthy a) eqn:E; [exact E | reflexivity]. Qed.

Lemma truthy_js_and a b : truthy (a &&& b) = truthy a && truthy b.
Proof. unfold js_and. destruct (truthy a) eqn:E; [reflexivity | exact E]. Qed.

Lemma truthy_VOptObject o : truthy (VOptObject o) = true <-> is_Some o.
Proof.
  destruct o as [c|]; simpl; split; intros H; try done.
Qed.

Lemma truthy_VString s : truthy (VString s) = true <-> s <> EmptyString.
Proof.
  simpl. rewrite negb_true_iff. split.
  - intros H ->. discriminate.
  - intros H. by apply String.eqb_neq.
Qed.

(** ** The compatibility mode *)

Lemma includes_values cm :
  JsString.includes compatibilityModes.values cm = true <->
  cm = "none" \/ cm = "modern" \/ cm = "all".
Proof.
  unfold JsString.includes, compatibilityModes.values. simpl.
  rewrite orb_false_r, !orb_true_iff, !String.eqb_eq. tauto.
Qed.

Lemma includes_values_false cm :
  JsString.includes compatibilityModes.values cm = false <->
  cm <> "none" /\ cm <> "modern" /\ cm <> "all".
Proof.
  rewrite <- not_true_iff_false, includes_values. tauto.
Qed.

(** [startServer] gets past line 87 exactly when the mode is one of the
    three, and then its constants are the defaulted properties. *)
Lemma startServer_locals_valid pf config :
  JsString.includes compatibilityModes.values (modeOf config) = true ->
  exists L, startServer_locals pf config = Returned L.
Proof.
  intros H. unfold startServer_locals. fold (modeOf config).
  destruct (resolveAppIndex _ _ _) as [ai aid].
  rewrite H. simpl. eauto.
Qed.

Lemma startServer_locals_invalid pf config :
  JsString.includes compatibilityModes.values (modeOf config) = false ->
  startServer_locals pf config =
  Thrown (unknownCompatibilityMode (modeOf config)).
Proof.
  intros H. unfold startServer_locals. fold (modeOf config).
  destruct (resolveAppIndex _ _ _) as [ai aid].
  by rewrite H.
Qed.

Lemma startServer_locals_inv pf config L :
  startServer_locals pf config = Returned L ->
  JsString.includes compatibilityModes.values (modeOf config) = true /\
  l_compatibilityMode L = modeOf config /\
  l_customBabelConfig L = cfg_customBabelConfig config /\
  l_nodeResolve L = dflt false (cfg_nodeResolve config) /\
  l_readUserBabelConfig L = dflt false (cfg_readUserBabelConfig config) /\
  l_watch L = dflt false (cfg_watch config) /\
  l_rootDir L = dflt (process_cwd pf) (cfg_rootDir config) /\
  l_customMiddlewares L = cfg_customMiddlewares config /\
  (l_appIndex L, l_appIndexDir L) =
    resolveAppIndex pf (l_rootDir L) (cfg_appIndex config) /\
  l_flags L = deriveFlags (l_customBabelConfig L) (l_nodeResolve L)
                (l_readUserBabelConfig L) (l_watch L)
                (l_compatibilityMode L) (l_appIndex L).
Proof.
  unfold startServer_locals. fold (modeOf config).
  destruct (resolveAppIndex _ _ _) as [ai aid] eqn:E.
  destruct (JsString.includes _ _); simpl; [|discriminate].
  intros [= <-]. simpl. by rewrite E.
Qed.

(** ** Stage flags *)

(** C1. The flags that [startServer] derives, read for their truthiness,
    follow the formulas of the specification for every configuration that
    passes validation and so reaches them: [setupBabel] holds iff a babel configuration object is
    given, or [nodeResolve] is true, or the mode is [all] or [modern], or
    [readUserBabelConfig] is true; [setupCompatibility] holds iff the mode
    is not [none]; [setupTransformIndexHTML] is the disjunction of these
    two; [setupMessageChanel] is [watch] or [setupBabel]; and [nodeResolve]
    alone makes [setupBabel] hold, whatever the mode. *)
Theorem stage_flags_formulas pf config :
  JsString.includes compatibilityModes.values (modeOf config) = true ->
  exists L, startServer_locals pf config = Returned L /\
  let F := l_flags L in
  let nodeResolve := dflt false (cfg_nodeResolve config) in
  let readUserBabelConfig := dflt false (cfg_readUserBabelConfig config) in
  let watch := dflt false (cfg_watch config) in
  (truthy (setupBabel F) = true <->
     is_Some (cfg_customBabelConfig config) \/ nodeResolve = true \/
     (modeOf config = "all" \/ modeOf config = "modern") \/
     readUserBabelConfig = true) /\
  (truthy (setupCompatibility F) = true <-> modeOf config <> "none") /\
  truthy (setupTransformIndexHTML F) =
    truthy (setupBabel F) || truthy (setupCompatibility F) /\
  truthy (setupMessageChanel F) = watch || truthy (setupBabel F) /\
  (nodeResolve = true -> truthy (setupBabel F) = true).
Proof.
  intros Hvalid.
  destruct (startServer_locals_valid pf config Hvalid) as [L HL].
  exists L. split; [exact HL|].
  destruct (startServer_locals_inv _ _ _ HL)
    as (Hin & Hcm & Hbc & Hnr & Hru & Hw & _ & _ & _ & HF).
  simpl. rewrite HF, Hcm, Hbc, Hnr, Hru, Hw. clear HF.
  unfold deriveFlags; simpl setupBabel; simpl setupCompatibility;
    simpl setupTransformIndexHTML; simpl setupMessageChanel.
  rewrite ?truthy_js_or, ?truthy_js_and.
  assert (Hbabel :
    truthy (VOptObject (cfg_customBabelConfig config)) ||
    truthy (VBool (dflt false (cfg_nodeResolve config))) ||
    truthy (VBool (JsString.includes
               [compatibilityModes.ALL; compatibilityModes.MODERN]
               (modeOf config))) ||
    truthy (VBool (dflt false (cfg_readUserBabelConfig config))) = true <->
    is_Some (cfg_customBabelConfig config) \/
    dflt false (cfg_nodeResolve config) = true \/
    (modeOf config = "all" \/ modeOf config = "modern") \/
    dflt false (cfg_readUserBabelConfig config) = true).
  { rewrite !orb_true_iff, truthy_VOptObject. simpl truthy.
    unfold JsString.includes. simpl existsb.
    rewrite orb_false_r, !orb_true_iff, !String.eqb_eq. tauto. }
  split; [exact Hbabel|]. split; [|split; [reflexivity|split; [reflexivity|]]].
  - apply includes_values in Hin.
    rewrite andb_true_iff, truthy_VString. simpl truthy.
    rewrite negb_true_iff, String.eqb_neq.
    unfold compatibilityModes.NONE.
    split; [tauto | intros H; split; [|exact H]].
    destruct Hin as [E | [E | E]]; rewrite E; discriminate.
  - intros Hn. apply Hbabel. tauto.
Qed.

(** ** Validation *)

(** C3. A configuration whose compatibility mode is none of [none],
    [modern], [all] makes [startServer] throw an error whose message names
    the value and lists the three allowed ones; the world is as it was, so
    no watcher or server exists yet and nothing listens. *)
Theorem invalid_mode_throws pf config cm w :
  cfg_compatibilityMode config = Some cm ->
  cm <> "none" -> cm <> "modern" -> cm <> "all" ->
  startServer pf config w =
  (Thrown ("Unknown compatibility mode: " +:+ cm +:+
           ". Must be one of: none,modern,all"), w).
Proof.
  intros Hcm H1 H2 H3. unfold startServer.
  rewrite startServer_locals_invalid.
  - unfold modeOf. rewrite Hcm. reflexivity.
  - apply includes_values_false. unfold modeOf. rewrite Hcm. simpl. tauto.
Qed.

Lemma stage_flags_formulas_witness :
  exists L, startServer_locals devMachine allModeConfig = Returned L /\
            truthy (setupBabel (l_flags L)) = true /\
            truthy (setupCompatibility (l_flags L)) = true.
Proof.
  destruct (stage_flags_formulas devMachine allModeConfig eq_refl)
    as (L & HL & Hb & Hc & _).
  exists L. split; [exact HL|].
  split.
  - apply Hb. right. right. left. left. reflexivity.
  - apply Hc. discriminate.
Defined.

Lemma invalid_mode_throws_witness :
  startServer devMachine esmModeConfig emptyWorld =
  (Thrown "Unknown compatibility mode: esm. Must be one of: none,modern,all",
   emptyWorld).
Proof.
  apply (invalid_mode_throws devMachine esmModeConfig "esm" emptyWorld);
    [reflexivity | discriminate | discriminate | discriminate].
Defined.

(** ** Defaults *)

(** C7. A property left out of the configuration takes its default, in
    [createConfig] and, when the mode passes validation, in [startServer]
    alike: port 8080, hostname
    127.0.0.1, root directory the working directory of the process, module
    directories [node_modules], no watching, mode [none], a debounce of
    1000, and the watch exclusions [node_modules/**]. *)
Theorem omitted_fields_default pf config :
  let C := createConfig pf config in
  ((cfg_port config = None -> port C = 8080) /\
   (cfg_hostname config = None -> hostname C = "127.0.0.1") /\
   (cfg_rootDir config = None -> rootDir C = process_cwd pf) /\
   (cfg_moduleDirectories config = None ->
      moduleDirectories C = ["node_modules"]) /\
   (cfg_watch config = None -> watch C = false) /\
   (cfg_compatibilityMode config = None -> compatibilityMode C = "none") /\
   (cfg_watchDebounce config = None -> watchDebounce C = 1000) /\
   (cfg_watchExcludes config = None ->
      watchExcludes C = ["node_modules/**"])) /\
  (JsString.includes compatibilityModes.values (modeOf config) = true ->
   exists L, startServer_locals pf config = Returned L /\
   (cfg_port config = None -> l_port L = 8080) /\
   (cfg_hostname config = None -> l_hostname L = "127.0.0.1") /\
   (cfg_rootDir config = None -> l_rootDir L = process_cwd pf) /\
   (cfg_moduleDirectories config = None ->
      l_moduleDirectories L = ["node_modules"]) /\
   (cfg_watch config = None -> l_watch L = false) /\
   (cfg_compatibilityMode config = None -> l_compatibilityMode L = "none") /\
   (cfg_watchDebounce config = None -> l_watchDebounce L = 1000) /\
   (cfg_watchExcludes config = None ->
      l_watchExcludes L = ["node_modules/**"])).
Proof.
  split.
  - unfold createConfig.
    destruct (resolveAppIndex _ _ _) as [ai aid]. simpl.
    repeat split; intros ->; reflexivity.
  - intros Hvalid. unfold startServer_locals. fold (modeOf config).
    destruct (resolveAppIndex _ _ _) as [ai aid].
    rewrite Hvalid. simpl. eexists. split; [reflexivity|]. simpl.
    unfold modeOf. repeat split; intros ->; reflexivity.
Qed.

Lemma omitted_fields_default_witness :
  port (createConfig devMachine emptyConfig) = 8080 /\
  hostname (createConfig devMachine emptyConfig) = "127.0.0.1" /\
  rootDir (createConfig devMachine emptyConfig) = "/home/dev" /\
  watchExcludes (createConfig devMachine emptyConfig) = ["node_modules/**"] /\
  exists L, startServer_locals devMachine emptyConfig = Returned L /\
            l_port L = 8080 /\ l_compatibilityMode L = "none".
Proof.
  destruct (omitted_fields_default devMachine emptyConfig) as [HC HL].
  destruct HC as (H1 & H2 & H3 & _ & _ & _ & _ & H8).
  split; [exact (H1 eq_refl)|]. split; [exact (H2 eq_refl)|].
  split; [exact (H3 eq_refl)|]. split; [exact (H8 eq_refl)|].
  destruct (HL eq_refl) as (L & HR & G1 & _ & _ & _ & _ & G6 & _).
  exists L. split; [exact HR|].
  split; [exact (G1 eq_refl) | exact (G6 eq_refl)].
Defined.

(** ** The configuration resolver does not validate *)

(** C10. [createConfig] has no failing path: it is a function into
    [Config].  A compatibility mode outside the enumeration comes out of it
    unchanged, while [startServer] throws on the same configuration. *)
Theorem createConfig_keeps_any_mode pf config cm :
  cfg_compatibilityMode config = Some cm ->
  cm <> "none" -> cm <> "modern" -> cm <> "all" ->
  compatibilityMode (createConfig pf config) = cm /\
  forall w, startServer pf config w =
            (Thrown (unknownCompatibilityMode cm), w).
Proof.
  intros Hcm H1 H2 H3. split.
  - unfold createConfig.
    destruct (resolveAppIndex _ _ _) as [ai aid]. simpl.
    by rewrite Hcm.
  - intros w. unfold startServer.
    rewrite startServer_locals_invalid; unfold modeOf; rewrite Hcm; [done|].
    apply includes_values_false. tauto.
Qed.

Lemma createConfig_keeps_any_mode_witness :
  compatibilityMode (createConfig devMachine esmModeConfig) = "esm" /\
  forall w, startServer devMachine esmModeConfig w =
            (Thrown (unknownCompatibilityMode "esm"), w).
Proof.
  apply (createConfig_keeps_any_mode devMachine esmModeConfig "esm");
    [reflexivity | discriminate | discriminate | discriminate].
Defined.

(** ** The scenario of the specification *)

(** C5. For [{rootDir: "/app", appIndex: "index.html", watch: true}], on a
    POSIX machine with any working directory, [startServer] reaches its
    flags with [appIndex] = [/index.html], [appIndexDir] the empty string,
    a truthy [setupHistoryFallback] and [setupMessageChanel] = [true]. *)
Theorem scenario_resolution cwd :
  exists L,
    startServer_locals (Posix.platform cwd) scenarioConfig = Returned L /\
    l_appIndex L = Some "/index.html" /\
    l_appIndexDir L = Some EmptyString /\
    truthy (setupHistoryFallback (l_flags L)) = true /\
    setupMessageChanel (l_flags L) = VBool true.
Proof.
  eexists. split; [reflexivity|]. simpl. repeat split.
Qed.

(** ** What a successful [startServer] leaves behind *)

Lemma alter_last {A} (f : A -> A) (l : list A) (x : A) :
  alter f (length l) (l ++ [x]) = l ++ [f x].
Proof.
  replace (length l) with (length l + 0)%nat by lia.
  by rewrite alter_app_r.
Qed.

Lemma startServer_run_eq L w :
  startServer_run L w =
  (Returned {| server := length (servers w);
               app := assemble L (fileWatcherOf L w) |},
   {| watchers := watchers w ++
        (if l_watch L then [{| watched := []; closed := false |}] else []);
      servers := servers w ++ [serverOf L w] |}).
Proof.
  unfold startServer_run, serverOf, fileWatcherOf, mbind, Js_bind, mret, Js_ret,
    server_listen, server_addListener_close, update_server, createHTTPServer,
    chokidar_watch.
  destruct (l_watch L); simpl; rewrite !alter_last; simpl;
    rewrite ?app_nil_r; reflexivity.
Qed.

Lemma startServer_eq pf config L w :
  startServer_locals pf config = Returned L ->
  startServer pf config w =
  (Returned {| server := length (servers w);
               app := assemble L (fileWatcherOf L w) |},
   {| watchers := watchers w ++
        (if l_watch L then [{| watched := []; closed := false |}] else []);
      servers := servers w ++ [serverOf L w] |}).
Proof.
  intros HL. unfold startServer. rewrite HL. apply startServer_run_eq.
Qed.

(** ** The chain *)

Lemma use_customMiddlewares_eq o app0 :
  use_customMiddlewares o app0 = app0 ++ map CustomMiddleware (dflt [] o).
Proof.
  destruct o as [ms|]; simpl; [|by rewrite app_nil_r].
  assert (Hfold : forall ms a,
    fold_left (fun app1 m => Koa_use app1 (CustomMiddleware m)) ms a =
    a ++ map CustomMiddleware ms).
  { clear. induction ms as [|m ms IH]; intros a; simpl.
    - by rewrite app_nil_r.
    - rewrite IH. unfold Koa_use. by rewrite <- app_assoc. }
  destruct ms as [|m ms].
  - simpl. by rewrite app_nil_r.
  - change (0 <? Z.of_nat (length (m :: ms)))%Z with true. apply Hfold.
Qed.

Lemma assemble_eq L fw : assemble L fw = chainOf L fw.
Proof.
  unfold assemble, chainOf, use_if, stage_if, Koa_use, Koa_new.
  rewrite use_customMiddlewares_eq. simpl.
  destruct (truthy (setupMessageChanel _)), (l_watch L),
    (truthy (setupBabel _)), (truthy (setupTransformIndexHTML _)),
    (truthy (setupHistoryFallback _));
    rewrite <- ?app_assoc; reflexivity.
Qed.

Lemma stageOf_customs ms s :
  s ∈ map stageOf (map CustomMiddleware ms) -> s = SCustom.
Proof.
  induction ms as [|m ms IH]; simpl; intros H.
  - by apply not_elem_of_nil in H.
  - apply elem_of_cons in H as [-> | H]; auto.
Qed.

Lemma chainOf_stage_present L fw s b :
  flagOf L s = Some b -> (s ∈ map stageOf (chainOf L fw) <-> b = true).
Proof.
  intros Hf. unfold chainOf. rewrite map_app, elem_of_app.
  assert (Hc : s ∈ map stageOf
                 (map CustomMiddleware (dflt [] (l_customMiddlewares L))) ->
               False).
  { intros H. apply stageOf_customs in H. subst s. discriminate. }
  unfold stage_if.
  destruct s; simpl in Hf; try discriminate; injection Hf as <-;
    destruct (truthy (setupMessageChanel _)), (l_watch L),
      (truthy (setupBabel _)), (truthy (setupTransformIndexHTML _)),
      (truthy (setupHistoryFallback _)); simpl;
    rewrite ?elem_of_cons, ?elem_of_nil; intuition congruence.
Qed.

Lemma stageOf_elem m (chain : list Middleware) :
  m ∈ chain -> stageOf m ∈ map stageOf chain.
Proof.
  rewrite !list_elem_of_In. apply in_map.
Qed.

(** C4. For every configuration that passes validation, [startServer]
    returns an application whose chain is, in this order: the user's
    middlewares in the order given, the cache middleware, etag, the message
    channel, the reload-browser wiring, babel, the index-HTML transform,
    the history fallback, and static file serving last.  A conditional
    stage is in the chain exactly when its flag holds ([watch] for the
    reload-browser wiring), and with a falsy [setupMessageChanel] no
    message-channel middleware is in the chain at all. *)
Theorem pipeline_order pf config w :
  JsString.includes compatibilityModes.values (modeOf config) = true ->
  exists L r w',
    startServer_locals pf config = Returned L /\
    startServer pf config w = (Returned r, w') /\
    let F := l_flags L in
    app r = chainOf L (fileWatcherOf L w) /\
    map stageOf (app r) =
      map (fun _ => SCustom) (dflt [] (cfg_customMiddlewares config)) ++
      [SCache; SEtag] ++
      (if truthy (setupMessageChanel F) then [SMessageChannel] else []) ++
      (if l_watch L then [SReloadBrowser] else []) ++
      (if truthy (setupBabel F) then [SBabel] else []) ++
      (if truthy (setupTransformIndexHTML F) then [STransformIndexHTML]
       else []) ++
      (if truthy (setupHistoryFallback F) then [SHistoryFallback] else []) ++
      [SStatic] /\
    (exists rest,
       app r = map CustomMiddleware (dflt [] (cfg_customMiddlewares config))
               ++ CacheMiddleware :: KoaEtag :: rest) /\
    (forall s b, flagOf L s = Some b ->
                 (s ∈ map stageOf (app r) <-> b = true)) /\
    (truthy (setupMessageChanel F) = false ->
     forall rootDir appIndex,
       MessageChannelMiddleware rootDir appIndex ∉ app r).
Proof.
  intros Hvalid.
  destruct (startServer_locals_valid pf config Hvalid) as [L HL].
  exists L. eexists. eexists.
  split; [exact HL|]. split; [exact (startServer_eq pf config L w HL)|].
  destruct (startServer_locals_inv _ _ _ HL)
    as (_ & _ & _ & _ & _ & _ & _ & Hcust & _ & _).
  simpl. rewrite assemble_eq.
  split; [reflexivity|]. split; [|split; [|split]].
  - unfold chainOf, stage_if. rewrite Hcust, map_app, map_map.
    f_equal.
    destruct (truthy (setupMessageChanel _)), (l_watch L),
      (truthy (setupBabel _)), (truthy (setupTransformIndexHTML _)),
      (truthy (setupHistoryFallback _)); reflexivity.
  - unfold chainOf. rewrite Hcust. simpl. eauto.
  - intros s b. apply chainOf_stage_present.
  - intros Hoff rd ai Hin. apply stageOf_elem in Hin.
    apply (chainOf_stage_present L _ SMessageChannel _ eq_refl) in Hin.
    simpl in Hin. congruence.
Qed.

Lemma pipeline_order_witness :
  exists r w',
    startServer devMachine demoConfig emptyWorld = (Returned r, w') /\
    map stageOf (app r) =
      [SCache; SEtag; SMessageChannel; SReloadBrowser; SHistoryFallback;
       SStatic].
Proof.
  destruct (pipeline_order devMachine demoConfig emptyWorld eq_refl)
    as (L & r & w' & HL & Hrun & _ & Hstages & _).
  exists r, w'. split; [exact Hrun|].
  injection HL as <-. exact Hstages.
Defined.

(** ** The watcher *)

Lemma run_listeners_single l w : run_listeners [l] w = run_listener l w.
Proof.
  simpl. unfold mbind, Js_bind.
  by destruct (run_listener l w) as [[[]|e] w2].
Qed.

(** C8. For every configuration that passes validation, [startServer]
    creates one watcher when [watch] is true and none otherwise; the new
    watcher watches no path; and once the server emits [close] that watcher
    is closed, the watchers that existed before being left as they were. *)
Theorem watcher_lifecycle pf config w :
  JsString.includes compatibilityModes.values (modeOf config) = true ->
  let watch := dflt false (cfg_watch config) in
  exists r w1 w2,
    startServer pf config w = (Returned r, w1) /\
    watchers w1 = watchers w ++
      (if watch then [{| watched := []; closed := false |}] else []) /\
    server_emit_close (server r) w1 = (Returned tt, w2) /\
    watchers w2 = watchers w ++
      (if watch then [{| watched := []; closed := true |}] else []) /\
    servers w2 = servers w1.
Proof.
  intros Hvalid watch.
  destruct (startServer_locals_valid pf config Hvalid) as [L HL].
  destruct (startServer_locals_inv _ _ _ HL)
    as (_ & _ & _ & _ & _ & Hw & _).
  subst watch.
  assert (Hemit : forall w1,
    servers w1 = servers w ++ [serverOf L w] ->
    server_emit_close (length (servers w)) w1 =
    run_listener (CloseFileWatcher (fileWatcherOf L w)) w1).
  { intros w1 Hs. unfold server_emit_close.
    rewrite Hs, lookup_app_r, Nat.sub_diag by lia.
    simpl lookup.
    change (srv_onClose (serverOf L w))
      with [CloseFileWatcher (fileWatcherOf L w)].
    apply run_listeners_single. }
  rewrite (startServer_eq pf config L w HL).
  unfold fileWatcherOf in Hemit. rewrite Hw in *.
  destruct (dflt false (cfg_watch config));
    eexists; eexists; eexists; (split; [reflexivity|]); simpl;
    (split; [reflexivity|]); rewrite Hemit by reflexivity; simpl.
  - unfold FSWatcher_close. simpl. rewrite alter_last. simpl.
    repeat split.
  - rewrite app_nil_r. repeat split.
Qed.

Lemma watcher_lifecycle_witness :
  exists r w1 w2,
    startServer devMachine scenarioConfig emptyWorld = (Returned r, w1) /\
    watchers w1 = [{| watched := []; closed := false |}] /\
    server_emit_close (server r) w1 = (Returned tt, w2) /\
    watchers w2 = [{| watched := []; closed := true |}] /\
    servers w2 = servers w1.
Proof.
  exact (watcher_lifecycle devMachine scenarioConfig emptyWorld eq_refl).
Defined.

(** ** An empty [appIndex] *)

(** C9. An [appIndex] given as the empty string is left as it is and
    [appIndexDir] stays undefined; when [startServer] reaches its flags,
    [setupHistoryFallback] is falsy, and the chain of the application it
    returns holds no history-fallback middleware. *)
Theorem empty_appIndex_is_absent pf config w :
  cfg_appIndex config = Some EmptyString ->
  JsString.includes compatibilityModes.values (modeOf config) = true ->
  exists L r w',
    startServer_locals pf config = Returned L /\
    l_appIndex L = Some EmptyString /\
    l_appIndexDir L = None /\
    truthy (setupHistoryFallback (l_flags L)) = false /\
    startServer pf config w = (Returned r, w') /\
    forall appIndex appIndexDir,
      HistoryAPIFallbackMiddleware appIndex appIndexDir ∉ app r.
Proof.
  intros Hai Hvalid.
  destruct (startServer_locals_valid pf config Hvalid) as [L HL].
  destruct (startServer_locals_inv _ _ _ HL)
    as (_ & _ & _ & _ & _ & _ & _ & _ & Hres & HF).
  rewrite Hai in Hres. injection Hres as Hi Hd.
  assert (Hh : truthy (setupHistoryFallback (l_flags L)) = false).
  { rewrite HF. simpl. by rewrite Hi. }
  exists L. eexists. eexists.
  split; [exact HL|]. split; [exact Hi|]. split; [exact Hd|].
  split; [exact Hh|].
  split; [exact (startServer_eq pf config L w HL)|].
  simpl. intros a d Hin. rewrite assemble_eq in Hin.
  apply stageOf_elem in Hin.
  apply (chainOf_stage_present L _ SHistoryFallback _ eq_refl) in Hin.
  simpl in Hin. congruence.
Qed.

Lemma empty_appIndex_is_absent_witness :
  exists L r w',
    startServer_locals devMachine emptyIndexConfig = Returned L /\
    l_appIndex L = Some EmptyString /\
    l_appIndexDir L = None /\
    truthy (setupHistoryFallback (l_flags L)) = false /\
    startServer devMachine emptyIndexConfig emptyWorld = (Returned r, w') /\
    forall appIndex appIndexDir,
      HistoryAPIFallbackMiddleware appIndex appIndexDir ∉ app r.
Proof.
  exact (empty_appIndex_is_absent devMachine emptyIndexConfig emptyWorld
           eq_refl eq_refl).
Defined.

(** ** Normalizing [appIndex] *)

Lemma len_String d s : JsString.len (String d s) = 1 + JsString.len s.
Proof. unfold JsString.len. simpl String.length. lia. Qed.

Lemma len_nonneg s : 0 <= JsString.len s.
Proof. unfold JsString.len. lia. Qed.

Lemma len_append s t :
  JsString.len (s +:+ t) = JsString.len s + JsString.len t.
Proof.
  induction s as [|d s IH].
  - change (EmptyString +:+ t) with t. unfold JsString.len. simpl. lia.
  - change (String d s +:+ t) with (String d (s +:+ t)).
    rewrite !len_String, IH. lia.
Qed.

(** [lastIndexOf] finds the split of [s] at the last [c], if there is
    one. *)
Lemma lastIndexOf_from_spec c s : forall i acc,
  (occurs c s = false /\ JsString.lastIndexOf_from c s i acc = acc) \/
  (exists pre post,
     s = pre +:+ String c post /\ occurs c post = false /\
     JsString.lastIndexOf_from c s i acc = i + JsString.len pre).
Proof.
  induction s as [|d r IH]; intros i acc; simpl.
  - left. split; reflexivity.
  - destruct (IH (i + 1) (if Ascii.eqb d c then i else acc))
      as [[Hno Hacc] | (pre & post & -> & Hpost & Hidx)].
    + destruct (Ascii.eqb d c) eqn:E.
      * right. exists EmptyString, r. apply Ascii.eqb_eq in E. subst d.
        repeat split; [exact Hno|]. rewrite Hacc.
        unfold JsString.len. simpl. lia.
      * left. split; [exact Hno | exact Hacc].
    + right. exists (String d pre), post.
      repeat split; [exact Hpost|]. rewrite Hidx, len_String. lia.
Qed.

Lemma String_substring_prefix pre rest :
  String.substring 0 (String.length pre) (pre +:+ rest) = pre.
Proof.
  induction pre as [|d pre IH]; simpl.
  - by destruct rest.
  - by rewrite IH.
Qed.

Lemma substring_prefix pre rest :
  JsString.substring 0 (JsString.len pre) (pre +:+ rest) = pre.
Proof.
  unfold JsString.substring, JsString.clamp. rewrite len_append.
  pose proof (len_nonneg pre). pose proof (len_nonneg rest).
  replace (Z.max 0 (Z.min 0 (JsString.len pre + JsString.len rest)))
    with 0 by lia.
  replace (Z.max 0 (Z.min (JsString.len pre)
                      (JsString.len pre + JsString.len rest)))
    with (JsString.len pre) by lia.
  replace (Z.min 0 (JsString.len pre)) with 0 by lia.
  replace (Z.max 0 (JsString.len pre) - 0) with (JsString.len pre) by lia.
  unfold JsString.len. rewrite Nat2Z.id. apply String_substring_prefix.
Qed.

(** The directory part: for a string with a slash in it,
    [s.substring(0, s.lastIndexOf('/'))] is what stands before the last
    slash. *)
Lemma dirname_split s :
  occurs "/" s = true ->
  exists base,
    s = JsString.substring 0 (JsString.lastIndexOf "/" s) s +:+ "/" +:+ base /\
    occurs "/" base = false.
Proof.
  intros Hocc. unfold JsString.lastIndexOf.
  destruct (lastIndexOf_from_spec "/" s 0 (-1))
    as [[Hno _] | (pre & post & Hs & Hpost & Hidx)]; [congruence|].
  exists post. rewrite Hidx, Z.add_0_l.
  rewrite Hs at 2. rewrite substring_prefix.
  split; [exact Hs | exact Hpost].
Qed.

Lemma startsWith_slash s :
  JsString.startsWith "/" s = true <-> exists r, s = String "/" r.
Proof.
  unfold JsString.startsWith. destruct s as [|d r].
  - split; [discriminate | intros [r H]; discriminate].
  - change (String.prefix "/" (String d r))
      with (if Ascii.ascii_dec "/" d then String.prefix EmptyString r
            else false).
    destruct (Ascii.ascii_dec "/" d) as [<-|Hne].
    + split; [eauto | intros _; by destruct r].
    + split; [discriminate | intros [r' [= H _]]; congruence].
Qed.

Lemma toBrowserPath_keeps_leading_slash pf a :
  JsString.startsWith "/" a = true ->
  JsString.startsWith "/" (toBrowserPath pf a) = true.
Proof.
  rewrite !startsWith_slash. intros [r ->]. unfold toBrowserPath.
  exists (JsString.replaceAll (path_sep pf) "/" r).
  change (JsString.replaceAll (path_sep pf) "/" (String "/" r))
    with (String (if Ascii.eqb "/" (path_sep pf) then "/"%char else "/"%char)
            (JsString.replaceAll (path_sep pf) "/" r)).
  by destruct (Ascii.eqb "/" (path_sep pf)).
Qed.

Lemma startsWith_slash_occurs s :
  JsString.startsWith "/" s = true -> occurs "/" s = true.
Proof.
  rewrite startsWith_slash. intros [r ->]. reflexivity.
Qed.

Lemma normalizedAppIndex_has_slash pf rootDir a :
  occurs "/" (normalizedAppIndex pf rootDir a) = true.
Proof.
  unfold normalizedAppIndex.
  destruct (path_isAbsolute pf a); [reflexivity|].
  destruct (JsString.startsWith "/" a) eqn:E; simpl; [|reflexivity].
  by apply startsWith_slash_occurs, toBrowserPath_keeps_leading_slash.
Qed.

Lemma resolveAppIndex_nonempty pf rootDir a :
  a <> EmptyString ->
  resolveAppIndex pf rootDir (Some a) =
  (Some (normalizedAppIndex pf rootDir a),
   Some (JsString.substring 0
           (JsString.lastIndexOf "/" (normalizedAppIndex pf rootDir a))
           (normalizedAppIndex pf rootDir a))).
Proof.
  intros Ha. unfold resolveAppIndex.
  apply truthy_VString in Ha. simpl VOptString. rewrite Ha. reflexivity.
Qed.

Lemma createConfig_appIndex pf config :
  (appIndex (createConfig pf config), appIndexDir (createConfig pf config)) =
  resolveAppIndex pf (dflt (process_cwd pf) (cfg_rootDir config))
    (cfg_appIndex config).
Proof.
  unfold createConfig. by destruct (resolveAppIndex _ _ _) as [ai aid].
Qed.

Lemma startServer_locals_appIndex pf config L :
  startServer_locals pf config = Returned L ->
  (l_appIndex L, l_appIndexDir L) =
  resolveAppIndex pf (dflt (process_cwd pf) (cfg_rootDir config))
    (cfg_appIndex config).
Proof.
  intros HL.
  destruct (startServer_locals_inv _ _ _ HL)
    as (_ & _ & _ & _ & _ & _ & Hroot & _ & Hres & _).
  by rewrite Hres, Hroot.
Qed.

(** C2, as the code has it.  For every non-empty [appIndex]: when
    [path.isAbsolute] holds of it, the result is a slash followed by the
    browser-path form of its path relative to [rootDir]; when it is not
    absolute and does not start with a slash, the result is a slash followed
    by its browser-path form; only an [appIndex] that starts with a slash
    and is not absolute is handed on in its browser-path form.
    [appIndexDir] is the part of the result before its last slash.  Both
    functions agree on this. *)
Theorem appIndex_normalization pf config a :
  cfg_appIndex config = Some a -> a <> EmptyString ->
  let rootDir := dflt (process_cwd pf) (cfg_rootDir config) in
  let normalized :=
    if path_isAbsolute pf a then
      "/" +:+ toBrowserPath pf (path_relative pf rootDir a)
    else if negb (JsString.startsWith "/" a) then "/" +:+ toBrowserPath pf a
    else toBrowserPath pf a in
  let dir :=
    JsString.substring 0 (JsString.lastIndexOf "/" normalized) normalized in
  appIndex (createConfig pf config) = Some normalized /\
  appIndexDir (createConfig pf config) = Some dir /\
  (JsString.includes compatibilityModes.values (modeOf config) = true ->
   exists L, startServer_locals pf config = Returned L /\
             l_appIndex L = Some normalized /\ l_appIndexDir L = Some dir) /\
  (exists base, normalized = dir +:+ "/" +:+ base /\ occurs "/" base = false).
Proof.
  intros Hai Ha rootDir normalized dir.
  change normalized with (normalizedAppIndex pf rootDir a) in *.
  pose proof (createConfig_appIndex pf config) as HC.
  rewrite Hai, (resolveAppIndex_nonempty pf _ a Ha) in HC.
  injection HC as Hi Hd.
  split; [exact Hi|]. split; [exact Hd|]. split.
  - intros Hvalid.
    destruct (startServer_locals_valid pf config Hvalid) as [L HL].
    exists L. split; [exact HL|].
    pose proof (startServer_locals_appIndex pf config L HL) as HS.
    rewrite Hai, (resolveAppIndex_nonempty pf _ a Ha) in HS.
    injection HS as Hi' Hd'. split; [exact Hi' | exact Hd'].
  - apply dirname_split, normalizedAppIndex_has_slash.
Qed.

Lemma appIndex_normalization_witness :
  appIndex (createConfig devMachine demoConfig) = Some "/demo/index.html" /\
  appIndexDir (createConfig devMachine demoConfig) = Some "/demo" /\
  exists L, startServer_locals devMachine demoConfig = Returned L /\
            l_appIndex L = Some "/demo/index.html" /\
            l_appIndexDir L = Some "/demo".
Proof.
  destruct (appIndex_normalization devMachine demoConfig
              "/app/demo/index.html" eq_refl)
    as (Hi & Hd & HL & _); [discriminate|].
  split; [exact Hi|]. split; [exact Hd|]. exact (HL eq_refl).
Defined.

(** C2, as stated, fails: on a POSIX machine an [appIndex] that starts with
    a slash is absolute, so [/index.html] under the root [/app] is rewritten
    relative to the root and does not come out unchanged. *)
Lemma appIndex_leading_slash_rewritten :
  JsString.startsWith "/" "/index.html" = true /\
  cfg_appIndex slashIndexConfig = Some "/index.html" /\
  appIndex (createConfig devMachine slashIndexConfig) =
    Some "/../index.html" /\
  (exists L, startServer_locals devMachine slashIndexConfig = Returned L /\
             l_appIndex L = Some "/../index.html") /\
  appIndex (createConfig devMachine slashIndexConfig) <>
    cfg_appIndex slashIndexConfig.
Proof.
  split; [reflexivity|]. split; [reflexivity|]. split; [reflexivity|].
  split; [eexists; split; reflexivity | discriminate].
Qed.

(** ** [appIndexDir] is defined whenever [appIndex] is set *)

(** C6. When [appIndex] is set, which the code tests by its truthiness,
    [appIndexDir] is a string after resolution: in the record of
    [createConfig], and in [startServer] for every configuration that
    passes validation. *)
Theorem appIndexDir_defined pf config :
  truthy (VOptString (cfg_appIndex config)) = true ->
  (exists d, appIndexDir (createConfig pf config) = Some d) /\
  (JsString.includes compatibilityModes.values (modeOf config) = true ->
   exists L d, startServer_locals pf config = Returned L /\
               l_appIndexDir L = Some d).
Proof.
  intros Hset.
  destruct (cfg_appIndex config) as [a|] eqn:Hai; [|discriminate].
  apply truthy_VString in Hset.
  split.
  - pose proof (createConfig_appIndex pf config) as HC.
    rewrite Hai, (resolveAppIndex_nonempty pf _ a Hset) in HC.
    injection HC as _ Hd. eauto.
  - intros Hvalid.
    destruct (startServer_locals_valid pf config Hvalid) as [L HL].
    pose proof (startServer_locals_appIndex pf config L HL) as HS.
    rewrite Hai, (resolveAppIndex_nonempty pf _ a Hset) in HS.
    injection HS as _ Hd. eauto.
Qed.

Lemma appIndexDir_defined_witness :
  (exists d, appIndexDir (createConfig devMachine scenarioConfig) = Some d) /\
  exists L d, startServer_locals devMachine scenarioConfig = Returned L /\
              l_appIndexDir L = Some d.
Proof.
  destruct (appIndexDir_defined devMachine scenarioConfig eq_refl)
    as [HC HL].
  split; [exact HC | exact (HL eq_refl)].
Defined.

(** * Further properties of the two functions *)

(** ** What [startServer] shares with [createConfig] *)

(** X1. For every configuration that passes validation, the constants of
    [startServer] are the properties of the record that [createConfig]
    returns for it, [appIndex] and [appIndexDir] included.  Left aside are
    [customBabelConfig], [openPath] and [customMiddlewares], which
    [createConfig] defaults to [null] and [startServer] leaves
    [undefined]. *)
Theorem startServer_agrees_with_createConfig pf config :
  JsString.includes compatibilityModes.values (modeOf config) = true ->
  exists L, startServer_locals pf config = Returned L /\
  let C := createConfig pf config in
  l_port L = port C /\ l_hostname L = hostname C /\
  l_rootDir L = rootDir C /\ l_appIndex L = appIndex C /\
  l_appIndexDir L = appIndexDir C /\
  l_moduleDirectories L = moduleDirectories C /\
  l_nodeResolve L = nodeResolve C /\
  l_readUserBabelConfig L = readUserBabelConfig C /\
  l_watch L = watch C /\ l_openBrowser L = openBrowser C /\
  l_logStartup L = logStartup C /\
  l_http2 L = http2 C /\
  l_extraFileExtensions L = extraFileExtensions C /\
  l_compatibilityMode L = compatibilityMode C /\
  l_babelExclude L = babelExclude C /\
  l_babelModernExclude L = babelModernExclude C /\
  l_watchExcludes L = watchExcludes C /\
  l_watchDebounce L = watchDebounce C.
Proof.
  intros Hvalid. unfold startServer_locals, createConfig.
  fold (modeOf config).
  destruct (resolveAppIndex _ _ _) as [ai aid].
  rewrite Hvalid. simpl. eexists. split; [reflexivity|].
  simpl. repeat split.
Qed.

Lemma startServer_agrees_with_createConfig_witness :
  exists L, startServer_locals devMachine demoConfig = Returned L /\
            l_appIndex L = appIndex (createConfig devMachine demoConfig) /\
            l_appIndexDir L = appIndexDir (createConfig devMachine demoConfig).
Proof.
  destruct (startServer_agrees_with_createConfig devMachine demoConfig
              eq_refl) as (L & HL & _ & _ & _ & Hi & Hd & _).
  exists L. split; [exact HL|]. split; [exact Hi | exact Hd].
Defined.

(** ** The one way [startServer] fails *)



(** ** The server that [startServer] creates *)

Lemma startServer_locals_net pf config L :
  startServer_locals pf config = Returned L ->
  l_port L = dflt 8080 (cfg_port config) /\
  l_hostname L = dflt "127.0.0.1" (cfg_hostname config) /\
  l_http2 L = dflt false (cfg_http2 config).
Proof.
  unfold startServer_locals.
  destruct (resolveAppIndex _ _ _) as [ai aid].
  destruct (negb _); [discriminate|].
  intros [= <-]. repeat split.
Qed.

Lemma lookup_last {A} (l : list A) (x : A) : (l ++ [x]) !! length l = Some x.
Proof. by rewrite lookup_app_r, Nat.sub_diag by lia. Qed.

(** X3. For every configuration that passes validation, [startServer]
    adds exactly one server to those that exist and changes none of them.
    The handle it returns is that of the new server, which has the chain of
    the returned application as its handler, was told to listen on the
    configured port and host (8080 and 127.0.0.1 when left out), calls the
    startup function with that same port and host, and has one listener
    for [close]. *)
Theorem startServer_creates_one_server pf config w :
  JsString.includes compatibilityModes.values (modeOf config) = true ->
  exists r w' s,
    startServer pf config w = (Returned r, w') /\
    servers w' = servers w ++ [s] /\
    servers w !! server r = None /\
    servers w' !! server r = Some s /\
    srv_handler s = app r /\
    srv_http2 s = dflt false (cfg_http2 config) /\
    srv_listen s = Some (dflt 8080 (cfg_port config),
                         dflt "127.0.0.1" (cfg_hostname config)) /\
    (exists o, srv_onListening s = Some o /\
               su_port o = dflt 8080 (cfg_port config) /\
               su_hostname o = dflt "127.0.0.1" (cfg_hostname config)) /\
    length (srv_onClose s) = 1%nat.
Proof.
  intros Hvalid.
  destruct (startServer_locals_valid pf config Hvalid) as [L HL].
  destruct (startServer_locals_net _ _ _ HL) as (Hp & Hh & H2).
  exists {| server := length (servers w);
            app := assemble L (fileWatcherOf L w) |}.
  eexists. exists (serverOf L w).
  split; [exact (startServer_eq pf config L w HL)|].
  simpl. split; [reflexivity|].
  split; [by apply lookup_ge_None_2|].
  split; [apply lookup_last|].
  unfold serverOf. simpl. rewrite Hp, Hh, H2. repeat split.
  eexists. split; [reflexivity|]. simpl. done.
Qed.

Lemma startServer_creates_one_server_witness :
  exists r w' s,
    startServer devMachine scenarioConfig emptyWorld = (Returned r, w') /\
    servers w' = [s] /\
    srv_handler s = app r /\
    srv_listen s = Some (8080, "127.0.0.1").
Proof.
  destruct (startServer_creates_one_server devMachine scenarioConfig
              emptyWorld eq_refl)
    as (r & w' & s & Hrun & Hs & _ & _ & Hh & _ & Hl & _).
  exists r, w', s.
  split; [exact Hrun|]. split; [exact Hs|]. split; [exact Hh | exact Hl].
Defined.

(** ** The watcher, the reload middleware and the [close] listener *)

Lemma chainOf_reload_inv L fw rd fw' ex db :
  ReloadBrowserMiddleware rd fw' ex db ∈ chainOf L fw ->
  l_watch L = true /\ fw' = fw /\ rd = l_rootDir L /\
  ex = l_watchExcludes L /\ db = l_watchDebounce L.
Proof.
  unfold chainOf, stage_if. rewrite elem_of_app. intros [H | H].
  - exfalso. induction (dflt [] (l_customMiddlewares L)) as [|m ms IH];
      simpl in H.
    + by apply elem_of_nil in H.
    + apply elem_of_cons in H as [H | H]; [discriminate | auto].
  - revert H.
    destruct (truthy (setupMessageChanel _)), (l_watch L),
      (truthy (setupBabel _)), (truthy (setupTransformIndexHTML _)),
      (truthy (setupHistoryFallback _)); simpl;
      rewrite ?elem_of_cons, ?elem_of_nil; intros H;
      repeat (destruct H as [H | H]; try discriminate);
      try (injection H as -> -> -> ->; done); try done.
Qed.

Lemma chainOf_reload_present L fw :
  l_watch L = true ->
  ReloadBrowserMiddleware (l_rootDir L) fw (l_watchExcludes L)
    (l_watchDebounce L) ∈ chainOf L fw.
Proof.
  intros Hw. unfold chainOf, stage_if. rewrite Hw.
  rewrite elem_of_app. right.
  destruct (truthy (setupMessageChanel _)); simpl;
    rewrite ?elem_of_cons; tauto.
Qed.

(** X4. When [watch] is true (and the mode passes validation), the chain
    holds a reload-browser middleware, and every reload-browser middleware
    in it was given the watcher that this call created: a watcher that did
    not exist before, watches no path, is open, and is the very watcher
    that the server's [close] listener closes. *)
Theorem reload_middleware_shares_the_watcher pf config w :
  cfg_watch config = Some true ->
  JsString.includes compatibilityModes.values (modeOf config) = true ->
  exists r w' s,
    startServer pf config w = (Returned r, w') /\
    let h := length (watchers w) in
    watchers w !! h = None /\
    watchers w' !! h = Some {| watched := []; closed := false |} /\
    (exists rootDir watchExcludes watchDebounce,
       ReloadBrowserMiddleware rootDir (Some h) watchExcludes watchDebounce
         ∈ app r) /\
    (forall rootDir fileWatcher watchExcludes watchDebounce,
       ReloadBrowserMiddleware rootDir fileWatcher watchExcludes watchDebounce
         ∈ app r -> fileWatcher = Some h) /\
    servers w' !! server r = Some s /\
    srv_onClose s = [CloseFileWatcher (Some h)].
Proof.
  intros Hwatch Hvalid.
  destruct (startServer_locals_valid pf config Hvalid) as [L HL].
  destruct (startServer_locals_inv _ _ _ HL)
    as (_ & _ & _ & _ & _ & Hw & _).
  rewrite Hwatch in Hw. simpl in Hw.
  assert (Hfw : fileWatcherOf L w = Some (length (watchers w))).
  { unfold fileWatcherOf. by rewrite Hw. }
  eexists. eexists. exists (serverOf L w).
  split; [exact (startServer_eq pf config L w HL)|].
  cbn [server app watchers servers]. rewrite Hw, assemble_eq, Hfw.
  split; [by apply lookup_ge_None_2|].
  split; [apply lookup_last|].
  split; [do 3 eexists; by apply chainOf_reload_present|].
  split.
  - intros rd fw ex db Hin. by apply chainOf_reload_inv in Hin as (_ & -> & _).
  - split; [apply lookup_last|]. unfold serverOf. simpl. by rewrite Hfw.
Qed.

Lemma reload_middleware_shares_the_watcher_witness :
  exists r w' s,
    startServer devMachine scenarioConfig emptyWorld = (Returned r, w') /\
    ReloadBrowserMiddleware "/app" (Some 0%nat) ["node_modules/**"] 1000
      ∈ app r /\
    servers w' !! server r = Some s /\
    srv_onClose s = [CloseFileWatcher (Some 0%nat)].
Proof.
  destruct (reload_middleware_shares_the_watcher devMachine scenarioConfig
              emptyWorld eq_refl eq_refl)
    as (r & w' & s & Hrun & _ & _ & _ & _ & Hs & Hc).
  exists r, w', s. split; [exact Hrun|].
  split; [|split; [exact Hs | exact Hc]].
  injection Hrun as <- _. vm_compute.
  do 3 apply list_elem_of_further. apply list_elem_of_here.
Defined.

(** ** Two servers in one process *)

Lemma alter_at_length {A} (f : A -> A) (l t : list A) (x : A) :
  alter f (length l) (l ++ x :: t) = l ++ f x :: t.
Proof.
  replace (length l) with (length l + 0)%nat by lia.
  by rewrite alter_app_r.
Qed.

Lemma server_emit_close_single w h s l :
  servers w !! h = Some s -> srv_onClose s = [l] ->
  server_emit_close h w = run_listener l w.
Proof.
  intros Hs Hl. unfold server_emit_close. rewrite Hs, Hl.
  apply run_listeners_single.
Qed.

(** X5. Two calls of [startServer] in a row, both passing validation,
    give two different servers, each with a watcher of its own when it
    watches.  When one of the servers emits [close], its watcher is closed
    and the watcher of the other server stays open. *)
Theorem servers_close_independently pf config1 config2 w :
  JsString.includes compatibilityModes.values (modeOf config1) = true ->
  JsString.includes compatibilityModes.values (modeOf config2) = true ->
  let watch1 := dflt false (cfg_watch config1) in
  let watch2 := dflt false (cfg_watch config2) in
  let opened := {| watched := []; closed := false |} in
  let shut := {| watched := []; closed := true |} in
  exists r1 w1 r2 w2 wa wb,
    startServer pf config1 w = (Returned r1, w1) /\
    startServer pf config2 w1 = (Returned r2, w2) /\
    server r1 <> server r2 /\
    server_emit_close (server r1) w2 = (Returned tt, wa) /\
    watchers wa = watchers w ++ (if watch1 then [shut] else []) ++
                                (if watch2 then [opened] else []) /\
    server_emit_close (server r2) w2 = (Returned tt, wb) /\
    watchers wb = watchers w ++ (if watch1 then [opened] else []) ++
                                (if watch2 then [shut] else []).
Proof.
  intros Hv1 Hv2 watch1 watch2 opened shut.
  destruct (startServer_locals_valid pf config1 Hv1) as [L1 HL1].
  destruct (startServer_locals_valid pf config2 Hv2) as [L2 HL2].
  destruct (startServer_locals_inv _ _ _ HL1)
    as (_ & _ & _ & _ & _ & Hw1 & _).
  destruct (startServer_locals_inv _ _ _ HL2)
    as (_ & _ & _ & _ & _ & Hw2 & _).
  fold watch1 in Hw1. fold watch2 in Hw2.
  pose (w1 := {| watchers := watchers w ++
                   (if l_watch L1 then [opened] else []);
                 servers := servers w ++ [serverOf L1 w] |}).
  pose (w2 := {| watchers := watchers w1 ++
                   (if l_watch L2 then [opened] else []);
                 servers := servers w1 ++ [serverOf L2 w1] |}).
  pose proof (startServer_eq pf config1 L1 w HL1) as E1.
  pose proof (startServer_eq pf config2 L2 w1 HL2) as E2.
  assert (Hs1 : servers w2 !! length (servers w) = Some (serverOf L1 w)).
  { simpl. rewrite lookup_app_l by (rewrite length_app; simpl; lia).
    apply lookup_last. }
  assert (Hs2 : servers w2 !! length (servers w1) = Some (serverOf L2 w1)).
  { apply lookup_last. }
  assert (Hc1 : server_emit_close (length (servers w)) w2 =
                run_listener (CloseFileWatcher (fileWatcherOf L1 w)) w2).
  { by apply (server_emit_close_single _ _ _ _ Hs1). }
  assert (Hc2 : server_emit_close (length (servers w1)) w2 =
                run_listener (CloseFileWatcher (fileWatcherOf L2 w1)) w2).
  { by apply (server_emit_close_single _ _ _ _ Hs2). }
  exists {| server := length (servers w);
            app := assemble L1 (fileWatcherOf L1 w) |}, w1.
  exists {| server := length (servers w1);
            app := assemble L2 (fileWatcherOf L2 w1) |}, w2.
  exists {| watchers := watchers w ++ (if watch1 then [shut] else []) ++
                        (if watch2 then [opened] else []);
            servers := servers w2 |}.
  exists {| watchers := watchers w ++ (if watch1 then [opened] else []) ++
                        (if watch2 then [shut] else []);
            servers := servers w2 |}.
  split; [exact E1|]. split; [exact E2|].
  split; [simpl; rewrite length_app; simpl; lia|].
  cbn [server watchers]. rewrite Hc1, Hc2. clear Hc1 Hc2 Hs1 Hs2 E1 E2.
  unfold fileWatcherOf. subst w2 w1. cbn [watchers servers].
  rewrite Hw1, Hw2.
  destruct watch1, watch2; simpl; unfold FSWatcher_close; simpl;
    rewrite ?app_nil_r.
  - rewrite <- app_assoc. simpl. rewrite alter_at_length.
    split; [reflexivity|]. split; [reflexivity|].
    replace (watchers w ++ [opened; opened])
      with ((watchers w ++ [opened]) ++ [opened])
      by (by rewrite <- app_assoc).
    rewrite alter_last, <- app_assoc. repeat split.
  - rewrite alter_last. repeat split.
  - rewrite alter_last. repeat split.
  - repeat split.
Qed.

Lemma servers_close_independently_witness :
  exists r1 w1 r2 w2 wa,
    startServer devMachine scenarioConfig emptyWorld = (Returned r1, w1) /\
    startServer devMachine demoConfig w1 = (Returned r2, w2) /\
    server_emit_close (server r1) w2 = (Returned tt, wa) /\
    watchers wa = [{| watched := []; closed := true |};
                   {| watched := []; closed := false |}].
Proof.
  destruct (servers_close_independently devMachine scenarioConfig demoConfig
              emptyWorld eq_refl eq_refl)
    as (r1 & w1 & r2 & w2 & wa & wb & H1 & H2 & _ & Ha & Hwa & _).
  exists r1, w1, r2, w2, wa.
  split; [exact H1|]. split; [exact H2|]. split; [exact Ha | exact Hwa].
Defined.

(** ** How the stages depend on one another *)

Lemma elem_of_stage_if cond m x : x ∈ stage_if cond m <-> cond = true /\ x = m.
Proof.
  unfold stage_if. destruct cond.
  - rewrite list_elem_of_singleton. tauto.
  - rewrite elem_of_nil. split; [tauto | intros [H _]; discriminate].
Qed.

(** The members of the chain, stage by stage. *)
Lemma elem_of_chainOf L fw m :
  m ∈ chainOf L fw <->
  (exists c, m = CustomMiddleware c /\ c ∈ dflt [] (l_customMiddlewares L)) \/
  m = CacheMiddleware \/ m = KoaEtag \/
  (truthy (setupMessageChanel (l_flags L)) = true /\
   m = MessageChannelMiddleware (l_rootDir L) (l_appIndex L)) \/
  (l_watch L = true /\
   m = ReloadBrowserMiddleware (l_rootDir L) fw (l_watchExcludes L)
         (l_watchDebounce L)) \/
  (truthy (setupBabel (l_flags L)) = true /\
   m = BabelMiddleware
         {| bo_rootDir := l_rootDir L;
            bo_moduleDirectories := l_moduleDirectories L;
            bo_nodeResolve := l_nodeResolve L;
            bo_readUserBabelConfig := l_readUserBabelConfig L;
            bo_compatibilityMode := l_compatibilityMode L;
            bo_extraFileExtensions := l_extraFileExtensions L;
            bo_customBabelConfig := l_customBabelConfig L;
            bo_babelExclude := l_babelExclude L;
            bo_babelModernExclude := l_babelModernExclude L |}) \/
  (truthy (setupTransformIndexHTML (l_flags L)) = true /\
   m = TransformIndexHTMLMiddleware (l_compatibilityMode L) (l_appIndex L)
         (l_appIndexDir L)) \/
  (truthy (setupHistoryFallback (l_flags L)) = true /\
   m = HistoryAPIFallbackMiddleware (l_appIndex L) (l_appIndexDir L)) \/
  m = KoaStatic (l_rootDir L).
Proof.
  unfold chainOf.
  change (map CustomMiddleware (dflt [] (l_customMiddlewares L)))
    with (CustomMiddleware <$> dflt [] (l_customMiddlewares L)).
  rewrite !elem_of_app, !elem_of_stage_if, list_elem_of_fmap,
    !elem_of_cons, elem_of_nil.
  tauto.
Qed.

Lemma deriveFlags_html_babel cbc nr ru wt cm ai :
  JsString.includes compatibilityModes.values cm = true ->
  truthy (setupTransformIndexHTML (deriveFlags cbc nr ru wt cm ai)) =
  truthy (setupBabel (deriveFlags cbc nr ru wt cm ai)).
Proof.
  intros H. apply includes_values in H.
  unfold deriveFlags. simpl setupTransformIndexHTML. simpl setupBabel.
  rewrite !truthy_js_or, truthy_js_and.
  destruct H as [-> | [-> | ->]]; destruct cbc, nr, ru; reflexivity.
Qed.

Lemma deriveFlags_channel cbc nr ru wt cm ai :
  truthy (setupMessageChanel (deriveFlags cbc nr ru wt cm ai)) =
  wt || truthy (setupBabel (deriveFlags cbc nr ru wt cm ai)).
Proof. unfold deriveFlags. simpl. by rewrite truthy_js_or. Qed.

(** X6. With the three modes [none], [modern] and [all], in the chain
    that [startServer] builds for a configuration that passes validation,
    the index-HTML transform is present exactly when
    babel is, and the message channel is present exactly when the
    reload-browser wiring or babel is. *)
Theorem stages_depend_on_one_another pf config w :
  JsString.includes compatibilityModes.values (modeOf config) = true ->
  exists r w',
    startServer pf config w = (Returned r, w') /\
    let stages := map stageOf (app r) in
    (STransformIndexHTML ∈ stages <-> SBabel ∈ stages) /\
    (SMessageChannel ∈ stages <->
     SReloadBrowser ∈ stages \/ SBabel ∈ stages).
Proof.
  intros Hvalid.
  destruct (startServer_locals_valid pf config Hvalid) as [L HL].
  destruct (startServer_locals_inv _ _ _ HL)
    as (_ & Hcm & _ & _ & _ & _ & _ & _ & _ & HF).
  eexists. eexists.
  split; [exact (startServer_eq pf config L w HL)|].
  cbn [app]. rewrite assemble_eq.
  rewrite (chainOf_stage_present L _ STransformIndexHTML _ eq_refl),
    (chainOf_stage_present L _ SBabel _ eq_refl),
    (chainOf_stage_present L _ SMessageChannel _ eq_refl),
    (chainOf_stage_present L _ SReloadBrowser _ eq_refl).
  rewrite HF, deriveFlags_channel, deriveFlags_html_babel
    by (by rewrite Hcm).
  rewrite orb_true_iff. tauto.
Qed.

Lemma stages_depend_on_one_another_witness :
  exists r w',
    startServer devMachine modernConfig emptyWorld = (Returned r, w') /\
    STransformIndexHTML ∈ map stageOf (app r) /\
    SMessageChannel ∈ map stageOf (app r).
Proof.
  destruct (stages_depend_on_one_another devMachine modernConfig emptyWorld
              eq_refl) as (r & w' & Hrun & Hhtml & Hmc).
  assert (Hb : SBabel ∈ map stageOf (app r)).
  { injection Hrun as <- _. vm_compute.
    do 3 apply list_elem_of_further. apply list_elem_of_here. }
  exists r, w'. split; [exact Hrun|].
  split; [apply Hhtml, Hb | apply Hmc; right; exact Hb].
Defined.

(** X7. Every stage of the chain that takes a compatibility mode, babel
    and the index-HTML transform, was given the mode of the configuration,
    which is one of [none], [modern], [all]: no stage is ever created with
    an unknown mode. *)
Theorem stages_carry_a_valid_mode pf config w :
  JsString.includes compatibilityModes.values (modeOf config) = true ->
  exists r w',
    startServer pf config w = (Returned r, w') /\
    forall m cm, m ∈ app r -> stageMode m = Some cm ->
      cm = modeOf config /\ (cm = "none" \/ cm = "modern" \/ cm = "all").
Proof.
  intros Hvalid.
  destruct (startServer_locals_valid pf config Hvalid) as [L HL].
  destruct (startServer_locals_inv _ _ _ HL) as (_ & Hcm & _).
  eexists. eexists.
  split; [exact (startServer_eq pf config L w HL)|].
  cbn [app]. rewrite assemble_eq. intros m cm Hin Hmode.
  assert (cm = modeOf config) as ->.
  { apply elem_of_chainOf in Hin.
    destruct Hin as [(c & -> & _) | [-> | [-> | [[_ ->] | [[_ ->] |
      [[_ ->] | [[_ ->] | [[_ ->] | ->]]]]]]]]; simpl in Hmode;
      try discriminate; injection Hmode as <-; exact Hcm. }
  split; [reflexivity | by apply includes_values].
Qed.

Lemma stages_carry_a_valid_mode_witness :
  exists r w',
    startServer devMachine modernConfig emptyWorld = (Returned r, w') /\
    forall m cm, m ∈ app r -> stageMode m = Some cm -> cm = "modern".
Proof.
  destruct (stages_carry_a_valid_mode devMachine modernConfig emptyWorld
              eq_refl) as (r & w' & Hrun & Hm).
  exists r, w'. split; [exact Hrun|].
  intros m cm Hin Hs. exact (proj1 (Hm m cm Hin Hs)).
Defined.

(** ** User middlewares *)

(** X8. An empty [customMiddlewares] array is the same as none: whatever
    the rest of the configuration, [startServer] gives the same result and
    leaves the same world in both cases. *)
Theorem empty_customMiddlewares_as_none pf config w :
  startServer pf (withCustomMiddlewares (Some []) config) w =
  startServer pf (withCustomMiddlewares None config) w.
Proof.
  unfold startServer, startServer_locals. simpl.
  destruct (resolveAppIndex _ _ _) as [ai aid].
  destruct (negb _); [reflexivity|].
  rewrite !startServer_run_eq. simpl.
  unfold serverOf, fileWatcherOf. simpl.
  rewrite !assemble_eq. reflexivity.
Qed.

(** ** The resolved [appIndex] *)

Lemma occurs_nonempty c s : occurs c s = true -> s <> EmptyString.
Proof. intros H ->. discriminate. Qed.

Lemma normalizedAppIndex_starts_with_slash pf rootDir a :
  JsString.startsWith "/" (normalizedAppIndex pf rootDir a) = true.
Proof.
  unfold normalizedAppIndex.
  destruct (path_isAbsolute pf a); [apply startsWith_slash; eauto|].
  destruct (JsString.startsWith "/" a) eqn:E; cbn [negb].
  - by apply toBrowserPath_keeps_leading_slash.
  - apply startsWith_slash; eauto.
Qed.

(** The part before the last slash of a string that starts with a slash
    is empty or starts with a slash itself, and is shorter. *)
Lemma dirname_of_absolute s :
  JsString.startsWith "/" s = true ->
  let d := JsString.substring 0 (JsString.lastIndexOf "/" s) s in
  (d = EmptyString \/ JsString.startsWith "/" d = true) /\
  JsString.len d < JsString.len s.
Proof.
  intros Hs d.
  destruct (dirname_split s (startsWith_slash_occurs s Hs))
    as (base & Hsplit & _).
  fold d in Hsplit. split.
  - destruct d as [|c d']; [by left|]. right.
    apply startsWith_slash in Hs as [r Hr].
    rewrite Hr in Hsplit.
    change (String c d' +:+ "/" +:+ base)
      with (String c (d' +:+ "/" +:+ base)) in Hsplit.
    injection Hsplit as <- _. apply startsWith_slash. eauto.
  - apply (f_equal JsString.len) in Hsplit.
    rewrite !len_append in Hsplit.
    pose proof (len_nonneg base).
    change (JsString.len "/") with 1 in Hsplit. lia.
Qed.

(** X9. A non-empty [appIndex] always comes out browser-absolute: the
    resolved [appIndex] starts with a slash, and [appIndexDir] is shorter
    than it and is either empty or starts with a slash as well.  This holds
    in [createConfig] and, when the mode passes validation, in
    [startServer]. *)
Theorem resolved_appIndex_is_browser_absolute pf config :
  truthy (VOptString (cfg_appIndex config)) = true ->
  (exists i d,
     appIndex (createConfig pf config) = Some i /\
     appIndexDir (createConfig pf config) = Some d /\
     JsString.startsWith "/" i = true /\
     (d = EmptyString \/ JsString.startsWith "/" d = true) /\
     JsString.len d < JsString.len i) /\
  (JsString.includes compatibilityModes.values (modeOf config) = true ->
   exists L i d,
     startServer_locals pf config = Returned L /\
     l_appIndex L = Some i /\ l_appIndexDir L = Some d /\
     JsString.startsWith "/" i = true /\
     (d = EmptyString \/ JsString.startsWith "/" d = true) /\
     JsString.len d < JsString.len i).
Proof.
  intros Hset.
  destruct (cfg_appIndex config) as [a|] eqn:Hai; [|discriminate].
  apply truthy_VString in Hset.
  set (rd := dflt (process_cwd pf) (cfg_rootDir config)).
  pose proof (normalizedAppIndex_starts_with_slash pf rd a) as Hslash.
  pose proof (dirname_of_absolute _ Hslash) as [Hd Hlen].
  split.
  - pose proof (createConfig_appIndex pf config) as HC.
    rewrite Hai, (resolveAppIndex_nonempty pf _ a Hset) in HC.
    injection HC as Hi Hdir. eauto 10.
  - intros Hvalid.
    destruct (startServer_locals_valid pf config Hvalid) as [L HL].
    pose proof (startServer_locals_appIndex pf config L HL) as HS.
    rewrite Hai, (resolveAppIndex_nonempty pf _ a Hset) in HS.
    injection HS as Hi Hdir. eauto 10.
Qed.

Lemma resolved_appIndex_is_browser_absolute_witness :
  exists i d,
    appIndex (createConfig devMachine demoConfig) = Some i /\
    appIndexDir (createConfig devMachine demoConfig) = Some d /\
    JsString.startsWith "/" i = true /\
    (d = EmptyString \/ JsString.startsWith "/" d = true) /\
    JsString.len d < JsString.len i.
Proof.
  exact (proj1 (resolved_appIndex_is_browser_absolute devMachine demoConfig
                  eq_refl)).
Defined.

(** ** Resolving a resolved configuration *)

(** X10. Without an [appIndex] (left out, or the empty string),
    [createConfig] is idempotent: resolving the record it returned gives
    that record again. *)
Theorem createConfig_idempotent_without_appIndex pf config :
  truthy (VOptString (cfg_appIndex config)) = false ->
  createConfig pf (asInput (createConfig pf config)) = createConfig pf config.
Proof.
  intros Hunset. unfold createConfig at 2 3.
  unfold resolveAppIndex. rewrite Hunset.
  unfold createConfig. simpl.
  unfold resolveAppIndex. rewrite Hunset. reflexivity.
Qed.

Lemma createConfig_idempotent_without_appIndex_witness :
  createConfig devMachine (asInput (createConfig devMachine modernConfig)) =
  createConfig devMachine modernConfig.
Proof.
  exact (createConfig_idempotent_without_appIndex devMachine modernConfig
           eq_refl).
Defined.

Lemma createConfig_mode pf config :
  compatibilityMode (createConfig pf config) = modeOf config.
Proof.
  unfold createConfig. by destruct (resolveAppIndex _ _ _) as [ai aid].
Qed.

(** X11. Resolving twice is not resolving once when there is an
    [appIndex].  On a platform where every path that starts with a slash is
    absolute, the [appIndex] that [createConfig] returned is an absolute
    path for the next resolution: [createConfig], or [startServer], applied
    to the returned record rewrites it relative to [rootDir] a second
    time. *)
Theorem resolving_twice_rewrites_appIndex pf config :
  (forall s, JsString.startsWith "/" s = true -> path_isAbsolute pf s = true) ->
  truthy (VOptString (cfg_appIndex config)) = true ->
  let C := createConfig pf config in
  exists i,
    appIndex C = Some i /\
    appIndex (createConfig pf (asInput C)) =
      Some ("/" +:+ toBrowserPath pf (path_relative pf (rootDir C) i)) /\
    (JsString.includes compatibilityModes.values (modeOf config) = true ->
     exists L, startServer_locals pf (asInput C) = Returned L /\
               l_appIndex L =
                 Some ("/" +:+
                       toBrowserPath pf (path_relative pf (rootDir C) i))).
Proof.
  intros Habs Hset C.
  destruct (cfg_appIndex config) as [a|] eqn:Hai; [|discriminate].
  apply truthy_VString in Hset.
  set (rd := dflt (process_cwd pf) (cfg_rootDir config)).
  set (n := normalizedAppIndex pf rd a).
  assert (Hi : appIndex C = Some n).
  { pose proof (createConfig_appIndex pf config) as HC.
    rewrite Hai, (resolveAppIndex_nonempty pf _ a Hset) in HC.
    by injection HC as Hi _. }
  assert (Hn : n <> EmptyString).
  { apply (occurs_nonempty "/"), normalizedAppIndex_has_slash. }
  assert (Hagain :
    resolveAppIndex pf (dflt (process_cwd pf) (cfg_rootDir (asInput C)))
      (cfg_appIndex (asInput C)) =
    (Some ("/" +:+ toBrowserPath pf (path_relative pf (rootDir C) n)),
     Some (JsString.substring 0
             (JsString.lastIndexOf "/"
                ("/" +:+ toBrowserPath pf (path_relative pf (rootDir C) n)))
             ("/" +:+ toBrowserPath pf (path_relative pf (rootDir C) n))))).
  { cbn [asInput cfg_rootDir cfg_appIndex dflt]. rewrite Hi.
    rewrite (resolveAppIndex_nonempty pf _ n Hn). unfold normalizedAppIndex.
    by rewrite (Habs n (normalizedAppIndex_starts_with_slash pf rd a)). }
  exists n. split; [exact Hi|]. split.
  - pose proof (createConfig_appIndex pf (asInput C)) as HC.
    rewrite Hagain in HC. by injection HC as H _.
  - intros Hvalid.
    assert (Hvalid' : JsString.includes compatibilityModes.values
                        (modeOf (asInput C)) = true).
    { unfold modeOf. cbn [asInput cfg_compatibilityMode dflt].
      unfold C. by rewrite createConfig_mode. }
    destruct (startServer_locals_valid pf _ Hvalid') as [L HL].
    exists L. split; [exact HL|].
    pose proof (startServer_locals_appIndex pf _ L HL) as HS.
    rewrite Hagain in HS. by injection HS as H _.
Qed.

Lemma resolving_twice_rewrites_appIndex_witness :
  appIndex (createConfig devMachine scenarioConfig) = Some "/index.html" /\
  appIndex (createConfig devMachine
              (asInput (createConfig devMachine scenarioConfig))) =
    Some "/../index.html".
Proof.
  destruct (resolving_twice_rewrites_appIndex devMachine scenarioConfig
              (fun s H => H) eq_refl) as (i & Hi & Htwice & _).
  split; [reflexivity|].
  injection Hi as <-. exact Htwice.
Defined.

(** ** The history fallback *)

Lemma resolveAppIndex_truthy pf rd ai :
  truthy (VOptString (fst (resolveAppIndex pf rd ai))) =
  truthy (VOptString ai).
Proof.
  destruct (truthy (VOptString ai)) eqn:E.
  - destruct ai as [a|]; [|discriminate].
    apply truthy_VString in E.
    rewrite (resolveAppIndex_nonempty pf rd a E). simpl fst.
    apply truthy_VString, (occurs_nonempty "/"), normalizedAppIndex_has_slash.
  - unfold resolveAppIndex. rewrite E. exact E.
Qed.

(** X12. For every configuration that passes validation, the chain holds
    a history-fallback middleware exactly when the configuration has a
    non-empty [appIndex], and that middleware was given the [appIndex] and
    [appIndexDir] that [createConfig] computes for the configuration. *)
Theorem history_fallback_follows_appIndex pf config w :
  JsString.includes compatibilityModes.values (modeOf config) = true ->
  exists r w',
    startServer pf config w = (Returned r, w') /\
    ((exists a d, HistoryAPIFallbackMiddleware a d ∈ app r) <->
     truthy (VOptString (cfg_appIndex config)) = true) /\
    (forall a d, HistoryAPIFallbackMiddleware a d ∈ app r ->
       a = appIndex (createConfig pf config) /\
       d = appIndexDir (createConfig pf config)).
Proof.
  intros Hvalid.
  destruct (startServer_locals_valid pf config Hvalid) as [L HL].
  destruct (startServer_locals_inv _ _ _ HL)
    as (_ & _ & _ & _ & _ & _ & _ & _ & _ & HF).
  pose proof (startServer_locals_appIndex pf config L HL) as HS.
  assert (Hflag : truthy (setupHistoryFallback (l_flags L)) =
                  truthy (VOptString (cfg_appIndex config))).
  { rewrite HF. simpl setupHistoryFallback.
    rewrite <- (resolveAppIndex_truthy pf
                  (dflt (process_cwd pf) (cfg_rootDir config))
                  (cfg_appIndex config)).
    by rewrite <- HS. }
  pose proof (createConfig_appIndex pf config) as HC.
  rewrite <- HS in HC. injection HC as Hi Hd.
  eexists. eexists.
  split; [exact (startServer_eq pf config L w HL)|].
  cbn [app]. rewrite assemble_eq, <- Hflag. split.
  - split.
    + intros (a & d & Hin). apply elem_of_chainOf in Hin.
      destruct Hin as [(c & Hc & _) | [Hc | [Hc | [[_ Hc] | [[_ Hc] |
        [[_ Hc] | [[_ Hc] | [[Hh _] | Hc]]]]]]]];
        try discriminate; exact Hh.
    + intros Hh. exists (l_appIndex L), (l_appIndexDir L).
      apply elem_of_chainOf. do 7 right. left. by split.
  - intros a d Hin. apply elem_of_chainOf in Hin.
    destruct Hin as [(c & Hc & _) | [Hc | [Hc | [[_ Hc] | [[_ Hc] |
      [[_ Hc] | [[_ Hc] | [[_ Hc] | Hc]]]]]]]];
      try discriminate.
    injection Hc as -> ->. by rewrite Hi, Hd.
Qed.

Lemma history_fallback_follows_appIndex_witness :
  exists r w',
    startServer devMachine demoConfig emptyWorld = (Returned r, w') /\
    exists a d, HistoryAPIFallbackMiddleware a d ∈ app r.
Proof.
  destruct (history_fallback_follows_appIndex devMachine demoConfig
              emptyWorld eq_refl) as (r & w' & Hrun & Hiff & _).
  exists r, w'. split; [exact Hrun|]. apply Hiff. reflexivity.
Defined.

(** ** The smallest chain *)

(** X13. With no babel configuration, [nodeResolve],
    [readUserBabelConfig] and [watch] off, the mode [none] and no
    [appIndex], [startServer] builds nothing beyond the user's middlewares,
    the cache middleware, etag and static file serving from [rootDir], and
    creates no watcher. *)
Theorem bare_configuration_serves_static_only pf config w :
  cfg_customBabelConfig config = None ->
  dflt false (cfg_nodeResolve config) = false ->
  dflt false (cfg_readUserBabelConfig config) = false ->
  dflt false (cfg_watch config) = false ->
  modeOf config = "none" ->
  truthy (VOptString (cfg_appIndex config)) = false ->
  exists r w',
    startServer pf config w = (Returned r, w') /\
    app r = map CustomMiddleware (dflt [] (cfg_customMiddlewares config)) ++
            [CacheMiddleware; KoaEtag;
             KoaStatic (dflt (process_cwd pf) (cfg_rootDir config))] /\
    watchers w' = watchers w.
Proof.
  intros Hbc Hnr Hru Hw Hmode Hai.
  assert (Hvalid : JsString.includes compatibilityModes.values
                     (modeOf config) = true) by (by rewrite Hmode).
  destruct (startServer_locals_valid pf config Hvalid) as [L HL].
  destruct (startServer_locals_inv _ _ _ HL)
    as (_ & Hcm & Hbc' & Hnr' & Hru' & Hw' & Hroot & Hcust & Hres & HF).
  assert (Hh : truthy (VOptString (l_appIndex L)) = false).
  { rewrite <- Hai,
      <- (resolveAppIndex_truthy pf (l_rootDir L) (cfg_appIndex config)).
    by rewrite <- Hres. }
  rewrite Hcm, Hbc', Hnr', Hru', Hw', Hbc, Hnr, Hru, Hw, Hmode in HF.
  eexists. eexists.
  split; [exact (startServer_eq pf config L w HL)|].
  cbn [app watchers]. rewrite assemble_eq, Hw', Hw, app_nil_r.
  split; [|reflexivity].
  unfold chainOf. rewrite HF, Hw', Hw, Hcust, Hroot.
  unfold deriveFlags. cbn [setupMessageChanel setupBabel
    setupTransformIndexHTML setupHistoryFallback].
  rewrite Hh. reflexivity.
Qed.

Lemma bare_configuration_serves_static_only_witness :
  exists r w',
    startServer devMachine emptyConfig emptyWorld = (Returned r, w') /\
    app r = [CacheMiddleware; KoaEtag; KoaStatic "/home/dev"] /\
    watchers w' = [].
Proof.
  exact (bare_configuration_serves_static_only devMachine emptyConfig
           emptyWorld eq_refl eq_refl eq_refl eq_refl eq_refl eq_refl).
Defined.
